(** * fred_data.py: fetching FRED series into one wide table

    A shallow embedding of [src/fred_data.py] and proofs about it.

    The script is a straight-line pipeline: resolve the command line,
    fetch one series per catalog identifier, outer-join them on the date
    axis, relabel the columns twice and write the result to disk.  Its
    effects (provider requests, sleeps, the two standard streams, the
    file system and the pandas objects it mutates) are modelled by a state
    and exception monad over an explicit [World].

    The collaborators that are not part of the script (the FRED client,
    the operating system, the pandas serialisers) are collected in the
    record [Env]; every definition below takes it as a parameter. *)

From stdpp Require Import gmap strings list sorting.
From Stdlib Require Import Ascii Floats.PrimFloat.

Local Open Scope Z_scope.

(** ** Python strings *)

Module Str.

(** The line feed, written [\n] in the source. *)
Definition nl : string := String "010"%char EmptyString.

(** [s.replace(old, new)] for a non-empty [old]: scan [s] from the left,
    replace every occurrence of [old] and resume the scan after it, so
    that the replaced occurrences never overlap.  [skip] counts the
    characters of an occurrence that are still to be dropped. *)
Fixpoint replace_from (old new : string) (skip : nat) (s : string) : string :=
  match s with
  | EmptyString => EmptyString
  | String c s' =>
      match skip with
      | S k => replace_from old new k s'
      | O =>
          if String.prefix old s
          then new +:+ replace_from old new (String.length old - 1) s'
          else String c (replace_from old new 0 s')
      end
  end.

Definition replace (old new s : string) : string := replace_from old new 0 s.

(** [old] occurs somewhere in [s]. *)
Definition occurs (old s : string) : Prop := ∃ a b, s = a +:+ old +:+ b.

End Str.

(** ** The series catalog *)

(** [SERIES]: a dict literal, so an association list in insertion order. *)
Definition SERIES : list (string * string) :=
  [ ("BAMLC0A0CMEY", "ICE BofA US Corporate Index Effective Yield");
    ("BAMLH0A0HYM2EY", "ICE BofA US High Yield Index Effective Yield");
    ("BAMLC0A0CM", "ICE BofA US Corporate Index OAS");
    ("BAMLH0A0HYM2", "ICE BofA US High Yield Index OAS");
    ("VIXCLS", "CBOE Volatility Index (VIX)");
    ("DGS10", "Market Yield on U.S. Treasury (10Y CMT)");
    ("DGS5", "Market Yield on U.S. Treasury (5Y CMT)");
    ("DGS2", "Market Yield on U.S. Treasury (2Y CMT)");
    ("DGS30", "Market Yield on U.S. Treasury (30Y CMT)");
    ("CPIAUCSL", "CPI: All Items");
    ("CPILFESL", "CPI: All Items less Food & Energy");
    ("UNRATE", "Unemployment Rate");
    ("CCSA", "Continued Claims (Insured Unemployment)") ].

(** [d.get(k)] / [d[k]] on a dict kept as an association list. *)
Fixpoint dict_get (d : list (string * string)) (k : string) : option string :=
  match d with
  | [] => None
  | (k', v) :: d' => if decide (k' = k) then Some v else dict_get d' k
  end.

(** [list(d.keys())] *)
Definition dict_keys (d : list (string * string)) : list string := fst <$> d.

(** ** Tables *)

(** A column label: a plain string, or a tuple of labels (one entry of a
    two-level [MultiIndex]). *)
Inductive label :=
| Str (s : string)
| Tup (a b : label).

#[global] Instance label_eq_dec : EqDecision label.
Proof. solve_decision. Defined.

(** A [pandas.DataFrame] with a date index.  Dates are timestamps, values
    are 64-bit floats, the missing marker is [nan].  [rows] holds each
    index entry with the values of its row, one per column; [col_names]
    holds the names of the column levels (empty for an unnamed index). *)
Record DataFrame := mkDataFrame {
  rows : list (Z * list float);
  columns : list label;
  col_names : list string
}.

Definition index (df : DataFrame) : list Z := fst <$> rows df.

(** [df.loc[d].iloc[j]]: the value in the row labelled [d], column [j]. *)
Definition cell (df : DataFrame) (d : Z) (j : nat) : option float :=
  match list_find (λ r, r.1 = d) (rows df) with
  | Some (_, (_, vs)) => vs !! j
  | None => None
  end.

(** The values of a table, row by row, without any header. *)
Definition values (df : DataFrame) : list (Z * list float) := rows df.

(** A fetched series.  The client builds it from a dict keyed by
    observation date, so its dates are distinct: a finite map from dates to
    values.  Dates are timestamps already, which [pd.to_datetime] leaves as
    they are; the name given by [s.name = sid] is paired with the series in
    the list of frames. *)
Abbreviation Series := (gmap Z float).

(** ** The world outside the script *)

(** An exception, with the text [str(e)] gives.  Only instances of
    [Exception] are raised by the collaborators; [SystemExit] has its own
    constructor in [result]. *)
Inductive exn :=
| Exception (msg : string).

Definition str_exn (e : exn) : string := match e with Exception msg => msg end.

(** What a file write does: it succeeds, or raises and leaves the file
    untouched ([None]) or with some partial contents. *)
Inductive io_outcome :=
| IoOk
| IoFail (e : exn) (residue : option string).

Record Env := mkEnv {
  (** [os.getenv] *)
  getenv : string → option string;
  (** [Fred(api_key).get_series(sid)]: the observations, or what it raises *)
  get_series : string → string → exn + Series;
  (** whether a [to_csv] / [to_parquet] to the given path goes through *)
  csv_io : string → io_outcome;
  parquet_io : string → io_outcome;
  (** the bytes [to_csv(_, index_label=l)] and [to_parquet] produce *)
  csv_bytes : DataFrame → string → string;
  parquet_bytes : DataFrame → string
}.

Inductive event :=
| EvGetSeries (sid : string)
| EvSleep (seconds : float)
| EvToCsv (path : string)
| EvToParquet (path : string)
| EvStdout (text : string)
| EvStderr (text : string).

(** [heap] holds the tables the script has references to; a reference is
    an index into it. *)
Record World := mkWorld {
  heap : list DataFrame;
  files : gmap string string;
  trace : list event
}.

(** ** The monad of the script *)

Inductive result (A : Type) :=
| Return (a : A)
| Raise (e : exn)
| SysExit (code : Z).
Arguments Return {A} a.
Arguments Raise {A} e.
Arguments SysExit {A} code.

Definition M (A : Type) : Type := World → result A * World.

Definition ret {A} (a : A) : M A := λ w, (Return a, w).

Definition bind {A B} (m : M A) (k : A → M B) : M B :=
  λ w, match m w with
       | (Return a, w') => k a w'
       | (Raise e, w') => (Raise e, w')
       | (SysExit c, w') => (SysExit c, w')
       end.

Notation "'do' x <- m ; k" := (bind m (λ x, k))
  (at level 10, x name, m at level 100, k at level 200).
Notation "'do' ' p <- m ; k" := (bind m (λ x, match x with p => k end))
  (at level 10, p pattern, m at level 100, k at level 200).
Notation "m ;; k" := (bind m (λ _, k))
  (at level 100, k at level 200, right associativity).

Definition raise {A} (e : exn) : M A := λ w, (Raise e, w).
Definition sys_exit {A} (code : Z) : M A := λ w, (SysExit code, w).

(** [try: m except Exception as e: h e].  [SystemExit] is not an
    [Exception] and passes through. *)
Definition try_except {A} (m : M A) (h : exn → M A) : M A :=
  λ w, match m w with
       | (Raise e, w') => h e w'
       | r => r
       end.

Definition emit (ev : event) : M unit :=
  λ w, (Return tt, mkWorld (heap w) (files w) (trace w ++ [ev])%list).

Definition set_files (f : gmap string string → gmap string string) : M unit :=
  λ w, (Return tt, mkWorld (heap w) (f (files w)) (trace w)).

Definition alloc (df : DataFrame) : M nat :=
  λ w, (Return (length (heap w)), mkWorld (heap w ++ [df])%list (files w) (trace w)).

Definition deref (r : nat) : M DataFrame :=
  λ w, match heap w !! r with
       | Some df => (Return df, w)
       | None => (Raise (Exception "NameError"), w)
       end.

Definition assign (r : nat) (df : DataFrame) : M unit :=
  λ w, (Return tt, mkWorld (<[r := df]> (heap w)) (files w) (trace w)).

Definition print (s : string) : M unit := emit (EvStdout (s +:+ Str.nl)).
Definition stderr_write (s : string) : M unit := emit (EvStderr s).

(** The status the process ends with: an uncaught exception prints a
    traceback and exits with 1. *)
Definition exit_status {A} (r : result A) : Z :=
  match r with
  | Return _ => 0
  | Raise _ => 1
  | SysExit c => c
  end.

(** ** Command line *)

(** What the user typed: each flag is present or not. *)
Record Argv := mkArgv {
  flag_api_key : option string;
  flag_out : option string;
  flag_parquet : option string;
  flag_timeout : option float
}.

(** The [argparse.Namespace] returned by [parse_args]. *)
Record Namespace := mkNamespace {
  api_key : option string;
  out : string;
  parquet : option string;
  timeout : float
}.

Definition parse_args (E : Env) (argv : Argv) : Namespace :=
  {| api_key := match flag_api_key argv with
                | Some k => Some k
                | None => getenv E "FRED_API_KEY"
                end;
     out := default "fred_series_all.csv" (flag_out argv);
     parquet := flag_parquet argv;
     timeout := default 0%float (flag_timeout argv) |}.

(** Truth value of an optional string: [None] and [""] are false. *)
Definition truthy (o : option string) : bool :=
  match o with
  | None | Some EmptyString => false
  | Some (String _ _) => true
  end.

(** ** pandas: outer join on the index, sorting by the index *)

(** Dates that occur in any of the series. *)
Definition union_indexes (frames : list (string * Series)) : gset Z :=
  ⋃ ((λ f, dom f.2) <$> frames).

(** The outer join of the series on their dates: one row per date of the
    union, one column per series, named after it; a series without an
    observation at a date gets [nan] there. *)
Definition outer_join (frames : list (string * Series)) : DataFrame :=
  {| rows := (λ d, (d, (λ f, default nan (f.2 !! d)) <$> frames))
               <$> elements (union_indexes frames);
     columns := (λ f, Str f.1) <$> frames;
     col_names := [] |}.

(** [pd.concat(frames, axis=1, join="outer")]; an empty list is rejected. *)
Definition concat_outer (frames : list (string * Series)) : exn + DataFrame :=
  match frames with
  | [] => inl (Exception "No objects to concatenate")
  | _ => inr (outer_join frames)
  end.

Definition row_le (r1 r2 : Z * list float) : Prop := r1.1 ≤ r2.1.

#[global] Instance row_le_dec r1 r2 : Decision (row_le r1 r2).
Proof. unfold row_le. apply _. Defined.

(** [df.sort_index()]: the rows in ascending order of their label. *)
Definition sort_index (df : DataFrame) : DataFrame :=
  {| rows := merge_sort row_le (rows df);
     columns := columns df;
     col_names := col_names df |}.

(** ** fetch_all *)

(** The client object [Fred(api_key=...)]. *)
Record Fred := mkFred { fred_api_key : string }.

Definition fred_get_series (E : Env) (fred : Fred) (sid : string) : M Series :=
  emit (EvGetSeries sid) ;;
  match get_series E (fred_api_key fred) sid with
  | inr s => ret s
  | inl e => raise e
  end.

(** [time.sleep(seconds)]: the call and its argument are recorded. *)
Definition time_sleep (seconds : float) : M unit := emit (EvSleep seconds).

(** The body of [for i, sid in enumerate(series_ids, 1)]; [n] is
    [len(series_ids)], [i] the running counter and [frames] the list built
    so far.  [args] is the global the loop reads its delay from. *)
Fixpoint fetch_loop (E : Env) (args : Namespace) (fred : Fred) (n : nat)
    (i : nat) (series_ids : list string) (frames : list (string * Series))
    : M (list (string * Series)) :=
  match series_ids with
  | [] => ret frames
  | sid :: rest =>
      do s <- fred_get_series E fred sid;
      let frames := (frames ++ [(sid, s)])%list in
      (if PrimFloat.ltb 0%float (timeout args) && bool_decide (i < n)%nat
       then time_sleep (timeout args)
       else ret tt) ;;
      fetch_loop E args fred n (S i) rest frames
  end.

Definition fetch_all (E : Env) (args : Namespace) (fred : Fred)
    (series_ids : list string) : M nat :=
  do frames <- fetch_loop E args fred (length series_ids) 1 series_ids [];
  match concat_outer frames with
  | inl e => raise e
  | inr df => alloc (sort_index df)
  end.

(** ** add_metadata_columns *)

(** [{sid: SERIES[sid] for sid in df.columns if sid in SERIES}] *)
Fixpoint friendly_dict (cols : list label) : list (string * string) :=
  match cols with
  | [] => []
  | Str sid :: cols' =>
      match dict_get SERIES sid with
      | Some name => (sid, name) :: friendly_dict cols'
      | None => friendly_dict cols'
      end
  | Tup _ _ :: cols' => friendly_dict cols'
  end.

(** [df.rename(columns=mapper)]: a new table whose labels found in the
    mapper are replaced. *)
Definition rename_label (mapper : list (string * string)) (l : label) : label :=
  match l with
  | Str s => Str (default s (dict_get mapper s))
  | Tup _ _ => l
  end.

Definition rename_columns (mapper : list (string * string)) (df : DataFrame)
    : DataFrame :=
  {| rows := rows df;
     columns := rename_label mapper <$> columns df;
     col_names := col_names df |}.

(** [SERIES.get(sid, sid)] *)
Definition SERIES_get_or_self (sid : label) : label :=
  match sid with
  | Str s => Str (default s (dict_get SERIES s))
  | Tup _ _ => sid
  end.

(** [MultiIndex.from_tuples([(sid, SERIES.get(sid, sid)) ...], names=...)] *)
Definition multi_columns (cols : list label) : list label :=
  (λ sid, Tup sid (SERIES_get_or_self sid)) <$> cols.

(** [df.columns = cols]: the table keeps its rows. *)
Definition set_columns (df : DataFrame) (cols : list label) (names : list string)
    : DataFrame :=
  {| rows := rows df; columns := cols; col_names := names |}.

Definition add_metadata_columns (df : nat) : M (nat * nat) :=
  do t <- deref df;
  let friendly := friendly_dict (columns t) in
  do df_friendly <- alloc (rename_columns friendly t);
  let cols := multi_columns (columns t) in
  assign df (set_columns t cols ["FRED_ID"; "Description"]) ;;
  do t' <- deref df;
  do df_out <- alloc t';
  ret (df_out, df_friendly).

(** ** Writers *)

Definition write_file (io : io_outcome) (path bytes : string) : M unit :=
  match io with
  | IoOk => set_files (λ fs, <[path := bytes]> fs)
  | IoFail e residue =>
      set_files (λ fs, match residue with
                       | Some part => <[path := part]> fs
                       | None => fs
                       end) ;;
      raise e
  end.

Definition to_csv (E : Env) (df : nat) (path index_label : string) : M unit :=
  do t <- deref df;
  emit (EvToCsv path) ;;
  write_file (csv_io E path) path (csv_bytes E t index_label).

Definition to_parquet (E : Env) (df : nat) (path : string) : M unit :=
  do t <- deref df;
  emit (EvToParquet path) ;;
  write_file (parquet_io E path) path (parquet_bytes E t).

(** ** The script *)

Definition missing_key_message : string :=
  "Error: FRED API key not provided. Use --api-key or set FRED_API_KEY env var."
  +:+ Str.nl.

(** [args.out.replace(".csv", "_friendly.csv")] *)
Definition friendly_out_of (out : string) : string :=
  Str.replace ".csv" "_friendly.csv" out.

(** The output section of the script: the statements after the call of
    [add_metadata_columns]. *)
Definition write_outputs (E : Env) (args : Namespace) (df_multi df_friendly : nat)
    : M unit :=
  to_csv E df_multi (out args) "Date" ;;
  print ("Wrote CSV: " +:+ out args
         +:+ "  (columns are a MultiIndex: FRED_ID, Description)") ;;
  match parquet args with
  | Some (String _ _ as path) =>
      try_except
        (to_parquet E df_multi path ;;
         print ("Wrote Parquet: " +:+ path))
        (λ e, stderr_write ("Parquet write failed (install pyarrow?): "
                            +:+ str_exn e +:+ Str.nl))
  | _ => ret tt
  end ;;
  let friendly_out := friendly_out_of (out args) in
  to_csv E df_friendly friendly_out "Date" ;;
  print ("Wrote CSV with friendly column names: " +:+ friendly_out).

(** The [if __name__ == "__main__":] block. *)
Definition main (E : Env) (argv : Argv) : M unit :=
  let args := parse_args E argv in
  match api_key args with
  | None | Some EmptyString =>
      stderr_write missing_key_message ;;
      sys_exit 1
  | Some key =>
      let fred := mkFred key in
      let series_ids := dict_keys SERIES in
      do df <- fetch_all E args fred series_ids;
      do '(df_multi, df_friendly) <- add_metadata_columns df;
      write_outputs E args df_multi df_friendly
  end.

(** The process as seen from outside: exit status and final world. *)
Definition run (E : Env) (argv : Argv) (w : World) : Z * World :=
  let '(r, w') := main E argv w in (exit_status r, w').

(** * Vocabulary of the statements *)

(** The row that belongs to date [d]. *)
Definition aligned (frames : list (string * Series)) (d : Z) : list float :=
  (λ f : string * Series, default nan (f.2 !! d)) <$> frames.

(** The frames the loop builds when every request is answered. *)
Definition fetched (resp : string → Series) (ids : list string)
    : list (string * Series) :=
  (λ sid, (sid, resp sid)) <$> ids.


(** The events of the loop over [ids], its counter being at [i]. *)
Fixpoint loop_events (d : float) (n i : nat) (ids : list string) : list event :=
  match ids with
  | [] => []
  | sid :: rest =>
      EvGetSeries sid
      :: (if PrimFloat.ltb 0%float d && bool_decide (i < n)%nat
          then [EvSleep d] else [])
      ++ loop_events d n (S i) rest
  end.

(** The identifiers requested and the delays slept in a trace, in order. *)
Definition requests (tr : list event) : list string :=
  omap (λ ev, match ev with EvGetSeries sid => Some sid | _ => None end) tr.


Definition is_write (ev : event) : bool :=
  match ev with EvToCsv _ | EvToParquet _ => true | _ => false end.

(** Adding events to the trace of a world. *)
Definition log (w : World) (evs : list event) : World :=
  mkWorld (heap w) (files w) (trace w ++ evs).

(** The two labelled views of a table. *)
Definition dual_header (t : DataFrame) : DataFrame :=
  set_columns t (multi_columns (columns t)) ["FRED_ID"; "Description"].

Definition description_only (t : DataFrame) : DataFrame :=
  rename_columns (friendly_dict (columns t)) t.

(** The description of an identifier, the identifier itself if the catalog
    does not have it. *)
Definition describe (sid : string) : string := default sid (dict_get SERIES sid).

Definition wrote_csv_message (path : string) : string :=
  ("Wrote CSV: " +:+ path
   +:+ "  (columns are a MultiIndex: FRED_ID, Description)") +:+ Str.nl.

Definition wrote_parquet_message (path : string) : string :=
  ("Wrote Parquet: " +:+ path) +:+ Str.nl.

Definition parquet_failed_message (e : exn) : string :=
  "Parquet write failed (install pyarrow?): " +:+ str_exn e +:+ Str.nl.

Definition wrote_friendly_message (path : string) : string :=
  ("Wrote CSV with friendly column names: " +:+ path) +:+ Str.nl.

(** What a write that raises leaves behind. *)
Definition leave (path : string) (residue : option string)
    (fs : gmap string string) : gmap string string :=
  match residue with
  | Some part => <[path := part]> fs
  | None => fs
  end.

(** The files and the events of the optional Parquet step. *)
Definition parquet_files (E : Env) (args : Namespace) (t : DataFrame)
    (fs : gmap string string) : gmap string string :=
  match parquet args with
  | Some (String _ _ as path) =>
      match parquet_io E path with
      | IoOk => <[path := parquet_bytes E t]> fs
      | IoFail _ residue => leave path residue fs
      end
  | _ => fs
  end.

Definition parquet_events (E : Env) (args : Namespace) : list event :=
  match parquet args with
  | Some (String _ _ as path) =>
      match parquet_io E path with
      | IoOk => [EvToParquet path; EvStdout (wrote_parquet_message path)]
      | IoFail e _ => [EvToParquet path; EvStderr (parquet_failed_message e)]
      end
  | _ => []
  end.

(** The world when the friendly write starts, the primary write having
    gone through. *)
Definition before_friendly (E : Env) (args : Namespace) (tm : DataFrame)
    (w : World) : World :=
  mkWorld (heap w)
    (parquet_files E args tm (<[out args := csv_bytes E tm "Date"]> (files w)))
    (trace w ++ [EvToCsv (out args); EvStdout (wrote_csv_message (out args))]
             ++ parquet_events E args).

(** The merged table of the catalog, given the provider's answers. *)
Definition catalog_table (resp : string → Series) : DataFrame :=
  sort_index (outer_join (fetched resp (dict_keys SERIES))).

(** What the provider answers to [key], the empty series standing in where
    it raises. *)
Definition answers (E : Env) (key : string) (sid : string) : Series :=
  match get_series E key sid with
  | inr s => s
  | inl _ => ∅
  end.

Definition answered (E : Env) (key : string) (sid : string) : Prop :=
  ∃ s, get_series E key sid = inr s.

(** What the primary path holds after a run that went through: the last
    of the three writes that targeted it. *)
Definition primary_content (E : Env) (args : Namespace) (tm tf : DataFrame)
    : string :=
  if decide (friendly_out_of (out args) = out args)
  then csv_bytes E tf "Date"
  else match parquet args with
       | Some (String _ _ as path) =>
           if decide (path = out args)
           then match parquet_io E path with
                | IoOk => parquet_bytes E tm
                | IoFail _ (Some part) => part
                | IoFail _ None => csv_bytes E tm "Date"
                end
           else csv_bytes E tm "Date"
       | _ => csv_bytes E tm "Date"
       end.

(** * A concrete environment *)

Module Sample.

(** Two series of different frequency; the others have no observation. *)
Definition observations (sid : string) : Series :=
  if decide (sid = "DGS10") then <[3 := 1.5%float]> {[1 := 2.5%float]}
  else if decide (sid = "UNRATE") then {[2 := 4%float]}
  else ∅.

Fixpoint label_text (l : label) : string :=
  match l with
  | Str s => s
  | Tup a b => label_text a +:+ "/" +:+ label_text b
  end.

(** A stand-in for the CSV serialiser: the header line, and one mark per
    row. *)
Definition render_csv (t : DataFrame) (index_label : string) : string :=
  index_label
  +:+ foldr (λ l acc, "," +:+ label_text l +:+ acc) Str.nl (columns t)
  +:+ foldr (λ _ acc, "." +:+ acc) Str.nl (rows t).

Definition env : Env :=
  {| getenv := λ _, None;
     get_series := λ _ sid, inr (observations sid);
     csv_io := λ _, IoOk;
     parquet_io := λ _, IoFail (Exception "No module named 'pyarrow'") None;
     csv_bytes := render_csv;
     parquet_bytes := λ _, "PAR1" |}.

(** The same, with a provider that rejects one identifier. *)
Definition env_rejecting : Env :=
  {| getenv := λ _, None;
     get_series := λ _ sid,
       if decide (sid = "VIXCLS") then inl (Exception "Bad Request.")
       else inr (observations sid);
     csv_io := λ _, IoOk;
     parquet_io := λ _, IoOk;
     csv_bytes := render_csv;
     parquet_bytes := λ _, "PAR1" |}.

(** Another environment with the same answers on the catalog: it differs
    in a variable the script does not read and on an identifier outside
    the catalog. *)
Definition env_elsewhere : Env :=
  {| getenv := λ v, if decide (v = "HOME") then Some "/home/fred" else None;
     get_series := λ _ sid,
       if decide (sid = "GDP") then inl (Exception "Bad Request.")
       else inr (observations sid);
     csv_io := λ _, IoOk;
     parquet_io := λ _, IoFail (Exception "No module named 'pyarrow'") None;
     csv_bytes := render_csv;
     parquet_bytes := λ _, "PAR1" |}.

Definition argv : Argv :=
  {| flag_api_key := Some "0123456789abcdef";
     flag_out := None;
     flag_parquet := Some "fred.parquet";
     flag_timeout := Some 0.5%float |}.

(** No flag at all. *)
Definition argv_bare : Argv :=
  {| flag_api_key := None;
     flag_out := None;
     flag_parquet := None;
     flag_timeout := None |}.

(** An output path without the [".csv"] extension. *)
Definition argv_txt : Argv :=
  {| flag_api_key := Some "0123456789abcdef";
     flag_out := Some "fred.txt";
     flag_parquet := None;
     flag_timeout := None |}.

Definition world0 : World := mkWorld [] ∅ [].

(** A world in which the output file exists already. *)
Definition world1 : World :=
  mkWorld [] {[ "fred_series_all.csv" := "stale" ]} [EvStdout "earlier"].

Definition fred : Fred := mkFred "0123456789abcdef".

(** A one-column table, as [fetch_all] leaves it. *)
Definition table : DataFrame :=
  {| rows := [(1, [2.5%float]); (3, [1.5%float])];
     columns := [Str "DGS10"];
     col_names := [] |}.

End Sample.

(** A literal that has no occurrence of another one. *)
Ltac no_occurrence :=
  let a := fresh "a" in
  let b := fresh "b" in
  let H := fresh "H" in
  intros (a & b & H);
  repeat (destruct a as [|? a]; simpl in H; try discriminate;
          injection H as <- H).

(** ** How a run can end *)

(** The five ways through the script, each with the status, the files and
    the trace it ends with.  [hp] is the heap the run leaves. *)
Inductive run_outcome (E : Env) (argv : Argv) (w : World) : Prop :=
| NoCredential :
    truthy (api_key (parse_args E argv)) = false →
    run E argv w = (1, log w [EvStderr missing_key_message]) →
    run_outcome E argv w
| RequestRaised (key : string) (pre post : list string) (bad : string) (e : exn) :
    api_key (parse_args E argv) = Some key → key ≠ "" →
    dict_keys SERIES = pre ++ bad :: post →
    (∀ sid, sid ∈ pre → answered E key sid) →
    get_series E key bad = inl e →
    run E argv w =
      (1, log w (loop_events (timeout (parse_args E argv))
                   (length (dict_keys SERIES)) 1 pre ++ [EvGetSeries bad])) →
    run_outcome E argv w
| PrimaryWriteRaised (key : string) (e : exn) (residue : option string)
    (hp : list DataFrame) :
    api_key (parse_args E argv) = Some key → key ≠ "" →
    (∀ sid, sid ∈ dict_keys SERIES → answered E key sid) →
    csv_io E (out (parse_args E argv)) = IoFail e residue →
    run E argv w =
      (1, mkWorld hp (leave (out (parse_args E argv)) residue (files w))
            (trace w
             ++ loop_events (timeout (parse_args E argv))
                  (length (dict_keys SERIES)) 1 (dict_keys SERIES)
             ++ [EvToCsv (out (parse_args E argv))])) →
    run_outcome E argv w
| FriendlyWriteRaised (key : string) (e : exn) (residue : option string)
    (hp : list DataFrame) :
    api_key (parse_args E argv) = Some key → key ≠ "" →
    (∀ sid, sid ∈ dict_keys SERIES → answered E key sid) →
    csv_io E (out (parse_args E argv)) = IoOk →
    csv_io E (friendly_out_of (out (parse_args E argv))) = IoFail e residue →
    run E argv w =
      (1, mkWorld hp
            (leave (friendly_out_of (out (parse_args E argv))) residue
               (parquet_files E (parse_args E argv)
                  (dual_header (catalog_table (answers E key)))
                  (<[out (parse_args E argv) :=
                       csv_bytes E (dual_header (catalog_table (answers E key)))
                         "Date"]> (files w))))
            (trace w
             ++ loop_events (timeout (parse_args E argv))
                  (length (dict_keys SERIES)) 1 (dict_keys SERIES)
             ++ [EvToCsv (out (parse_args E argv));
                 EvStdout (wrote_csv_message (out (parse_args E argv)))]
             ++ parquet_events E (parse_args E argv)
             ++ [EvToCsv (friendly_out_of (out (parse_args E argv)))])) →
    run_outcome E argv w
| Completed (key : string) (hp : list DataFrame) :
    api_key (parse_args E argv) = Some key → key ≠ "" →
    (∀ sid, sid ∈ dict_keys SERIES → answered E key sid) →
    csv_io E (out (parse_args E argv)) = IoOk →
    csv_io E (friendly_out_of (out (parse_args E argv))) = IoOk →
    run E argv w =
      (0, mkWorld hp
            (<[friendly_out_of (out (parse_args E argv)) :=
                 csv_bytes E (description_only (catalog_table (answers E key)))
                   "Date"]>
               (parquet_files E (parse_args E argv)
                  (dual_header (catalog_table (answers E key)))
                  (<[out (parse_args E argv) :=
                       csv_bytes E (dual_header (catalog_table (answers E key)))
                         "Date"]> (files w))))
            (trace w
             ++ loop_events (timeout (parse_args E argv))
                  (length (dict_keys SERIES)) 1 (dict_keys SERIES)
             ++ [EvToCsv (out (parse_args E argv));
                 EvStdout (wrote_csv_message (out (parse_args E argv)))]
             ++ parquet_events E (parse_args E argv)
             ++ [EvToCsv (friendly_out_of (out (parse_args E argv)));
                 EvStdout (wrote_friendly_message
                             (friendly_out_of (out (parse_args E argv))))])) →
    run_outcome E argv w.

(** The paths written to in a trace, in order. *)
Definition writes (tr : list event) : list string :=
  omap (λ ev, match ev with
              | EvToCsv path | EvToParquet path => Some path
              | _ => None
              end) tr.




(** The same command line with another [--parquet]. *)
Definition with_parquet (argv : Argv) (p : option string) : Argv :=
  {| flag_api_key := flag_api_key argv;
     flag_out := flag_out argv;
     flag_parquet := p;
     flag_timeout := flag_timeout argv |}.


(** The paths the output section writes to, in the order of its writes:
    the primary CSV, the Parquet file if one is configured, the friendly
    CSV. *)
Definition intended_writes (args : Namespace) : list string :=
  out args
  :: match parquet args with
     | Some (String _ _ as path) => [path]
     | _ => []
     end
  ++ [friendly_out_of (out args)].

(** Environments in which a CSV write raises. *)
Module Faulty.

(** No CSV file can be created. *)
Definition env_readonly : Env :=
  {| getenv := λ _, None;
     get_series := λ _ sid, inr (Sample.observations sid);
     csv_io := λ _, IoFail (Exception "Permission denied") None;
     parquet_io := λ _, IoOk;
     csv_bytes := Sample.render_csv;
     parquet_bytes := λ _, "PAR1" |}.


(** Everything works, Parquet included. *)
Definition env_pyarrow : Env :=
  {| getenv := λ v, if decide (v = "FRED_API_KEY") then Some "fedcba9876543210"
                    else None;
     get_series := λ _ sid, inr (Sample.observations sid);
     csv_io := λ _, IoOk;
     parquet_io := λ _, IoOk;
     csv_bytes := Sample.render_csv;
     parquet_bytes := λ _, "PAR1" |}.

End Faulty.


(** * Properties *)

(** ** String replacement *)

Module StrFacts.
Import Str.
#[local] Arguments String.append : simpl nomatch.

Lemma append_nil_r (s : string) : s +:+ "" = s.
Proof. induction s as [|c s IH]; simpl; [done | by rewrite IH]. Qed.

Lemma append_assoc (a b c : string) : (a +:+ b) +:+ c = a +:+ b +:+ c.
Proof. induction a as [|x a IH]; simpl; [done | by rewrite IH]. Qed.

Lemma length_append (a b : string) :
  String.length (a +:+ b) = (String.length a + String.length b)%nat.
Proof. induction a as [|x a IH]; simpl; [done | by rewrite IH]. Qed.

Lemma length_zero (s : string) : String.length s = 0%nat → s = "".
Proof. by destruct s. Qed.

Lemma prefix_true (a s : string) :
  String.prefix a s = true ↔ ∃ b, s = a +:+ b.
Proof.
  revert s. induction a as [|x a IH]; intros s; simpl.
  - split; [intros _; by exists s | by destruct s].
  - destruct s as [|y s]; [split; [done | by intros [b ?]] |].
    simpl. destruct (Ascii.ascii_dec x y) as [->|Hne].
    + rewrite IH. split; intros [b Hb]; exists b; congruence.
    + split; [done | intros [b Hb]; congruence].
Qed.

Lemma occurs_here (old b : string) : occurs old (old +:+ b).
Proof. by exists "", b. Qed.

Lemma occurs_later (old : string) (c : ascii) (s : string) :
  occurs old s → occurs old (String c s).
Proof. intros (a & b & ->). by exists (String c a), b. Qed.

(** Without an occurrence of [old] the scan copies every character. *)
Lemma replace_absent (old new s : string) :
  ¬ occurs old s → replace old new s = s.
Proof.
  unfold replace. induction s as [|c s IH]; intros Hno; [done |].
  cbn [replace_from].
  destruct (String.prefix old (String c s)) eqn:Hp.
  - apply prefix_true in Hp as [b Hb]. destruct Hno. rewrite Hb.
    apply occurs_here.
  - f_equal. apply IH. intros Hs. apply Hno. by apply occurs_later.
Qed.

(** An occurrence of [".csv"] at the head of [stem +:+ ".csv"] lies in
    [stem], unless [stem] is empty: the pattern cannot overlap itself. *)
Lemma csv_head_in_stem (stem : string) :
  String.prefix ".csv" (stem +:+ ".csv") = true →
  stem = "" ∨ occurs ".csv" stem.
Proof.
  intros [b Hb]%prefix_true.
  destruct stem as [|c1 [|c2 [|c3 [|c4 rest]]]]; simpl in Hb;
    [by left | discriminate.. |].
  right. injection Hb as -> -> -> -> _. apply (occurs_here ".csv" rest).
Qed.

Lemma replace_csv_suffix (new stem : string) :
  ¬ occurs ".csv" stem →
  replace ".csv" new (stem +:+ ".csv") = stem +:+ new.
Proof.
  unfold replace. induction stem as [|c stem IH]; intros Hno.
  - simpl. by rewrite append_nil_r.
  - change (String c stem +:+ ".csv") with (String c (stem +:+ ".csv")).
    cbn [replace_from].
    destruct (String.prefix ".csv" (String c (stem +:+ ".csv"))) eqn:Hp.
    + apply (csv_head_in_stem (String c stem)) in Hp as [?|?]; done.
    + simpl. f_equal. apply IH. intros Hs. apply Hno. by apply occurs_later.
Qed.

End StrFacts.

(** ** The secondary output path *)

(** Without [".csv"] in the primary path the replacement finds nothing. *)
Lemma friendly_out_of_no_csv (out : string) :
  ¬ Str.occurs ".csv" out → friendly_out_of out = out.
Proof. apply StrFacts.replace_absent. Qed.

(** C2 (as amended): for a primary path that ends in [".csv"] and has no
    other occurrence of [".csv"], the secondary path is the primary path
    with ["_friendly"] inserted right before that extension. *)
Theorem friendly_out_of_csv_path (stem : string) :
  ¬ Str.occurs ".csv" stem →
  friendly_out_of (stem +:+ ".csv") = stem +:+ "_friendly" +:+ ".csv".
Proof. intros Hno. by apply StrFacts.replace_csv_suffix. Qed.

Lemma friendly_out_of_csv_path_witness :
  friendly_out_of ("fred_series_all" +:+ ".csv") =
  "fred_series_all" +:+ "_friendly" +:+ ".csv".
Proof. apply (friendly_out_of_csv_path "fred_series_all"). no_occurrence. Defined.

(** C2 (as stated) fails: ["data.txt"] is returned unchanged, and a path
    with two occurrences of [".csv"] is changed in two places; no suffix,
    inserted at whatever position, accounts for what the script does on
    every path. *)
Lemma friendly_out_of_not_suffix_insertion :
  friendly_out_of "data.txt" = "data.txt" ∧
  friendly_out_of "a.csv.d/b.csv" = "a_friendly.csv.d/b_friendly.csv" ∧
  ¬ ∃ sfx : string, ∀ out : string, ∃ root ext : string,
      out = root +:+ ext ∧ friendly_out_of out = root +:+ sfx +:+ ext.
Proof.
  split; [reflexivity |]. split; [reflexivity |].
  intros [sfx H].
  destruct (H "data.txt") as (root & ext & Hout & Hres).
  assert (sfx = "") as ->.
  { apply StrFacts.length_zero.
    apply (f_equal String.length) in Hout, Hres.
    rewrite !StrFacts.length_append in *.
    change (String.length (friendly_out_of "data.txt"))
      with (String.length "data.txt") in Hres. lia. }
  destruct (H "data.csv") as (root' & ext' & Hout' & Hres').
  change ("" +:+ ext') with ext' in Hres'. rewrite <- Hout' in Hres'.
  discriminate.
Qed.

(** ** The merge: outer join and sort *)

#[global] Instance row_le_total : Total row_le.
Proof. intros r1 r2. unfold row_le. lia. Qed.

#[global] Instance row_le_trans : Transitive row_le.
Proof. intros r1 r2 r3. unfold row_le. lia. Qed.

Section merge.
Context (frames : list (string * Series)) (df : DataFrame).
Hypothesis Hconcat : concat_outer frames = inr df.

Lemma concat_outer_rows :
  rows df = (λ d, (d, aligned frames d)) <$> elements (union_indexes frames).
Proof using Hconcat.
  unfold concat_outer in Hconcat. unfold aligned.
  destruct frames; [done |]. by injection Hconcat as <-.
Qed.

Lemma concat_outer_columns : columns df = (λ f, Str f.1) <$> frames.
Proof using Hconcat.
  unfold concat_outer in Hconcat. destruct frames; [done |].
  by injection Hconcat as <-.
Qed.

Lemma concat_outer_index : index df = elements (union_indexes frames).
Proof using Hconcat.
  unfold index. rewrite concat_outer_rows, <- list_fmap_compose.
  apply list_fmap_id.
Qed.

Lemma sort_index_perm : index (sort_index df) ≡ₚ elements (union_indexes frames).
Proof using Hconcat.
  rewrite <- concat_outer_index. unfold index, sort_index; simpl.
  by rewrite merge_sort_Permutation.
Qed.

Lemma sort_index_NoDup : NoDup (index (sort_index df)).
Proof using Hconcat. rewrite sort_index_perm. apply NoDup_elements. Qed.

Lemma sort_index_elem_of (d : Z) :
  d ∈ index (sort_index df) ↔ d ∈ union_indexes frames.
Proof using Hconcat. by rewrite sort_index_perm, elem_of_elements. Qed.

Lemma sort_index_length :
  length (index (sort_index df)) = size (union_indexes frames).
Proof using Hconcat. by rewrite sort_index_perm. Qed.

Lemma sort_index_rows_aligned (r : Z * list float) :
  r ∈ rows (sort_index df) → r.2 = aligned frames r.1.
Proof using Hconcat.
  unfold sort_index; simpl. rewrite merge_sort_Permutation, concat_outer_rows.
  intros (d & -> & _)%list_elem_of_fmap. done.
Qed.

Lemma sort_index_cell (d : Z) (j : nat) (sid : string) (s : Series) :
  d ∈ union_indexes frames →
  frames !! j = Some (sid, s) →
  cell (sort_index df) d j = Some (default nan (s !! d)).
Proof using Hconcat.
  intros Hd Hj. unfold cell.
  apply sort_index_elem_of in Hd. unfold index in Hd.
  apply list_elem_of_fmap in Hd as (r & Hr & Hin).
  destruct (list_find_elem_of (λ r, r.1 = d) _ r Hin) as [[i [d' vs]] Hfind];
    [done |].
  rewrite Hfind. apply list_find_Some in Hfind as (Hi & Hd' & _).
  apply list_elem_of_lookup_2, sort_index_rows_aligned in Hi.
  simpl in *. subst. unfold aligned. by rewrite list_lookup_fmap, Hj.
Qed.

End merge.

Lemma StronglySorted_le_lt (l : list Z) :
  StronglySorted Z.le l → NoDup l → StronglySorted Z.lt l.
Proof.
  induction 1 as [|x l Hl IH Hx]; intros Hnd; [constructor |].
  apply NoDup_cons in Hnd as [Hx' Hnd]. constructor; [by apply IH |].
  rewrite Forall_forall in Hx |- *. intros y Hy.
  assert (x ≠ y) by (intros ->; done). specialize (Hx y Hy). lia.
Qed.

Lemma sort_index_sorted (df : DataFrame) :
  StronglySorted Z.le (index (sort_index df)).
Proof.
  unfold index, sort_index; simpl.
  apply (StronglySorted_fmap fst row_le Z.le); [by intros ?? |].
  apply StronglySorted_merge_sort; apply _.
Qed.

(** ** The fetch loop *)

Lemma log_nil (w : World) : log w [] = w.
Proof. destruct w. unfold log; simpl. by rewrite app_nil_r. Qed.

Lemma log_log (w : World) (e1 e2 : list event) :
  log (log w e1) e2 = log w (e1 ++ e2).
Proof. unfold log; simpl. by rewrite app_assoc. Qed.

Section loop.
Context (E : Env) (args : Namespace) (fred : Fred) (n : nat).
Context (resp : string → Series).

Lemma fetch_loop_ok (ids : list string) :
  ∀ (i : nat) (frames : list (string * Series)) (w : World),
    (∀ sid, sid ∈ ids → get_series E (fred_api_key fred) sid = inr (resp sid)) →
    fetch_loop E args fred n i ids frames w =
      (Return (frames ++ fetched resp ids),
       log w (loop_events (timeout args) n i ids)).
Proof.
  induction ids as [|sid rest IH]; intros i frames w Hok.
  - simpl. unfold ret. by rewrite app_nil_r, log_nil.
  - cbn [fetch_loop loop_events].
    unfold bind, fred_get_series, time_sleep, emit, ret.
    rewrite (Hok sid) by set_solver.
    destruct (PrimFloat.ltb 0 (timeout args) && bool_decide (i < n)%nat);
      simpl; (rewrite IH by (intros; apply Hok; set_solver));
      unfold fetched, log; simpl; rewrite <- !app_assoc; done.
Qed.

(** The loop stops at the first identifier the provider rejects. *)
Lemma fetch_loop_raise (pre post : list string) (bad : string) (e : exn) :
  ∀ (i : nat) (frames : list (string * Series)) (w : World),
    (∀ sid, sid ∈ pre → get_series E (fred_api_key fred) sid = inr (resp sid)) →
    get_series E (fred_api_key fred) bad = inl e →
    fetch_loop E args fred n i (pre ++ bad :: post) frames w =
      (Raise e, log w (loop_events (timeout args) n i pre ++ [EvGetSeries bad])).
Proof.
  induction pre as [|sid rest IH]; intros i frames w Hok Hbad.
  - cbn [app fetch_loop loop_events].
    unfold bind, fred_get_series, emit, raise. by rewrite Hbad.
  - cbn [app fetch_loop loop_events].
    unfold bind, fred_get_series, time_sleep, emit, ret.
    rewrite (Hok sid) by set_solver.
    destruct (PrimFloat.ltb 0 (timeout args) && bool_decide (i < n)%nat);
      simpl; (rewrite IH by (try done; intros; apply Hok; set_solver));
      unfold log; simpl; rewrite <- !app_assoc; done.
Qed.

End loop.


Lemma loop_events_not_positive (d : float) (ids : list string) :
  ∀ n i : nat,
    PrimFloat.ltb 0%float d = false →
    loop_events d n i ids = EvGetSeries <$> ids.
Proof.
  induction ids as [|sid rest IH]; intros n i Hd; [done |].
  cbn [loop_events]. rewrite Hd, (IH _ _ Hd). done.
Qed.



Lemma requests_loop_events (d : float) (ids : list string) :
  ∀ n i : nat, requests (loop_events d n i ids) = ids.
Proof.
  induction ids as [|sid rest IH]; intros n i; [done |].
  cbn [loop_events]. unfold requests in *. cbn [omap list_omap].
  rewrite omap_app, IH.
  by destruct (PrimFloat.ltb 0 d && bool_decide (i < n)%nat).
Qed.

Lemma writes_loop_events (d : float) (ids : list string) :
  ∀ n i : nat, Forall (λ ev, is_write ev = false) (loop_events d n i ids).
Proof.
  induction ids as [|sid rest IH]; intros n i; [constructor |].
  cbn [loop_events]. constructor; [done |]. apply Forall_app. split; [| apply IH].
  destruct (PrimFloat.ltb 0 d && bool_decide (i < n)%nat); by repeat constructor.
Qed.

(** ** fetch_all *)

Lemma concat_outer_nonempty (frames : list (string * Series)) :
  frames ≠ [] → concat_outer frames = inr (outer_join frames).
Proof. by destruct frames. Qed.

Lemma elem_of_union_indexes_fetched (resp : string → Series) (ids : list string)
    (d : Z) :
  d ∈ union_indexes (fetched resp ids) ↔
  ∃ sid, sid ∈ ids ∧ is_Some (resp sid !! d).
Proof.
  unfold union_indexes, fetched. rewrite elem_of_union_list. split.
  - intros (X & HX & Hd). apply list_elem_of_fmap in HX as ([sid s] & -> & Hin).
    apply list_elem_of_fmap in Hin as (sid' & [= -> ->] & Hin).
    exists sid'. split; [done |]. by apply elem_of_dom.
  - intros (sid & Hin & Hd). exists (dom (resp sid)). split.
    + apply list_elem_of_fmap. exists (sid, resp sid). split; [done |].
      apply list_elem_of_fmap. by exists sid.
    + by apply elem_of_dom.
Qed.

Section fetch_all.
Context (E : Env) (args : Namespace) (fred : Fred).
Context (resp : string → Series) (ids : list string).
Hypothesis Hok :
  ∀ sid, sid ∈ ids → get_series E (fred_api_key fred) sid = inr (resp sid).

Lemma fetch_all_ok (df : DataFrame) (w : World) :
  concat_outer (fetched resp ids) = inr df →
  fetch_all E args fred ids w =
    (Return (length (heap w)),
     mkWorld (heap w ++ [sort_index df]) (files w)
       (trace w ++ loop_events (timeout args) (length ids) 1 ids)).
Proof using Hok.
  intros Hdf. unfold fetch_all, bind.
  rewrite (fetch_loop_ok E args fred (length ids) resp ids 1 [] w Hok).
  simpl. fold (fetched resp ids). by rewrite Hdf.
Qed.


End fetch_all.

(** C1: the table [fetch_all] returns for a non-empty list of identifiers
    whose requests all succeed.  Its index is strictly ascending (sorted,
    without duplicates) and holds exactly the dates of the fetched series;
    it has as many rows as that union has elements and one column per
    identifier, in order; the cell at a date and an identifier is that
    series' observation at that date, and [nan] if it has none. *)
Theorem fetch_all_outer_join (E : Env) (args : Namespace) (fred : Fred)
    (resp : string → Series) (ids : list string) (w : World) :
  ids ≠ [] →
  (∀ sid, sid ∈ ids → get_series E (fred_api_key fred) sid = inr (resp sid)) →
  ∃ df : DataFrame,
    (fetch_all E args fred ids w).1 = Return (length (heap w)) ∧
    heap (fetch_all E args fred ids w).2 !! length (heap w) = Some df ∧
    StronglySorted Z.lt (index df) ∧
    (∀ d, d ∈ index df ↔ ∃ sid, sid ∈ ids ∧ is_Some (resp sid !! d)) ∧
    length (index df) = size (union_indexes (fetched resp ids)) ∧
    columns df = Str <$> ids ∧
    length (columns df) = length ids ∧
    (∀ d j sid, d ∈ index df → ids !! j = Some sid →
       cell df d j = Some (default nan (resp sid !! d))).
Proof.
  intros Hne Hok.
  assert (concat_outer (fetched resp ids) = inr (outer_join (fetched resp ids)))
    as Hdf0.
  { apply concat_outer_nonempty. unfold fetched. by destruct ids. }
  set (df0 := outer_join (fetched resp ids)) in *.
  exists (sort_index df0).
  rewrite (fetch_all_ok E args fred resp ids Hok df0 w Hdf0).
  cbn [fst snd heap].
  assert (columns (sort_index df0) = Str <$> ids) as Hcols.
  { change (columns (sort_index df0)) with (columns df0).
    rewrite (concat_outer_columns _ _ Hdf0). unfold fetched.
    by rewrite <- list_fmap_compose. }
  split_and!.
  - done.
  - by rewrite lookup_app_r, Nat.sub_diag by lia.
  - apply StronglySorted_le_lt; [apply sort_index_sorted |].
    by eapply sort_index_NoDup.
  - intros d. rewrite (sort_index_elem_of _ _ Hdf0).
    apply elem_of_union_indexes_fetched.
  - by apply sort_index_length.
  - done.
  - by rewrite Hcols, length_fmap.
  - intros d j sid Hd Hj.
    apply (sort_index_cell _ _ Hdf0 d j sid (resp sid)).
    + by apply (sort_index_elem_of _ _ Hdf0).
    + unfold fetched. by rewrite list_lookup_fmap, Hj.
Qed.

(** ** add_metadata_columns *)

Lemma dict_get_friendly_dict (cols : list label) (sid : string) :
  dict_get (friendly_dict cols) sid =
  if decide (Str sid ∈ cols) then dict_get SERIES sid else None.
Proof.
  induction cols as [|[s|a b] cols IH]; [done | |].
  - cbn [friendly_dict].
    destruct (dict_get SERIES s) as [name|] eqn:Hs; cbn [dict_get].
    + destruct (decide (s = sid)) as [->|Hne].
      * rewrite decide_True by set_solver. done.
      * rewrite IH. destruct (decide (Str sid ∈ cols)).
        -- rewrite decide_True by set_solver. done.
        -- rewrite decide_False; [done |]. intros [?|?]%elem_of_cons; congruence.
    + rewrite IH. destruct (decide (Str sid ∈ cols)).
      * rewrite decide_True by set_solver. done.
      * destruct (decide (Str sid ∈ Str s :: cols)) as [Hin|]; [| done].
        apply elem_of_cons in Hin as [[= ->]|?]; [done | done].
  - cbn [friendly_dict]. rewrite IH. destruct (decide (Str sid ∈ cols)).
    + rewrite decide_True by set_solver. done.
    + rewrite decide_False; [done |]. intros [?|?]%elem_of_cons; congruence.
Qed.

Lemma description_only_label (t : DataFrame) (j : nat) (sid : string) :
  columns t !! j = Some (Str sid) →
  columns (description_only t) !! j = Some (Str (describe sid)).
Proof.
  intros Hj. unfold description_only, rename_columns; simpl.
  rewrite list_lookup_fmap, Hj. simpl. rewrite dict_get_friendly_dict.
  rewrite decide_True by (by eapply list_elem_of_lookup_2).
  done.
Qed.

Lemma dual_header_label (t : DataFrame) (j : nat) (sid : string) :
  columns t !! j = Some (Str sid) →
  columns (dual_header t) !! j = Some (Tup (Str sid) (Str (describe sid))).
Proof.
  intros Hj. unfold dual_header, set_columns, multi_columns; simpl.
  by rewrite list_lookup_fmap, Hj.
Qed.

Lemma add_metadata_columns_spec (df : nat) (t : DataFrame) (w : World) :
  heap w !! df = Some t →
  add_metadata_columns df w =
    (Return (S (length (heap w)), length (heap w)),
     mkWorld (<[df := dual_header t]> (heap w ++ [description_only t])
              ++ [dual_header t])
       (files w) (trace w)).
Proof.
  intros Ht. pose proof (lookup_lt_Some _ _ _ Ht) as Hlt.
  unfold add_metadata_columns, bind, deref, alloc, assign, ret. rewrite Ht. simpl.
  fold (description_only t). fold (dual_header t).
  rewrite list_lookup_insert_eq by (rewrite length_app; simpl; lia).
  simpl. rewrite length_insert, length_app. simpl.
  by replace (length (heap w) + 1)%nat with (S (length (heap w))) by lia.
Qed.

Lemma add_metadata_columns_views (df : nat) (t : DataFrame) (w : World) :
  heap w !! df = Some t →
  let w' := (add_metadata_columns df w).2 in
  heap w' !! S (length (heap w)) = Some (dual_header t) ∧
  heap w' !! length (heap w) = Some (description_only t) ∧
  heap w' !! df = Some (dual_header t).
Proof.
  intros Ht. pose proof (lookup_lt_Some _ _ _ Ht) as Hlt.
  rewrite (add_metadata_columns_spec df t w Ht). simpl. split_and!.
  - rewrite lookup_app_r; rewrite length_insert, length_app; simpl; [| lia].
    by replace (S (length (heap w)) - (length (heap w) + 1))%nat with 0%nat by lia.
  - rewrite lookup_app_l by (rewrite length_insert, length_app; simpl; lia).
    rewrite list_lookup_insert_ne by lia.
    by rewrite lookup_app_r, Nat.sub_diag by lia.
  - rewrite lookup_app_l by (rewrite length_insert, length_app; simpl; lia).
    by rewrite list_lookup_insert_eq by (rewrite length_app; simpl; lia).
Qed.

(** C6 (as amended): labelling touches headers only.  Both views have the
    values of the merged table, cell by cell; their headers are the
    (identifier, description) pairs and the descriptions; the input table
    keeps its values as well, no file is written, nothing is logged and no
    other table changes.  The one effect is on the input table: its own
    header is replaced in place by the pairs. *)
Theorem add_metadata_columns_headers_only (df : nat) (t : DataFrame) (w : World) :
  heap w !! df = Some t →
  ∃ (df_out df_friendly : nat) (w' : World) (t_out t_friendly t_in : DataFrame),
    add_metadata_columns df w = (Return (df_out, df_friendly), w') ∧
    heap w' !! df_out = Some t_out ∧
    heap w' !! df_friendly = Some t_friendly ∧
    heap w' !! df = Some t_in ∧
    values t_out = values t ∧
    values t_friendly = values t ∧
    values t_in = values t ∧
    (∀ j sid, columns t !! j = Some (Str sid) →
       columns t_out !! j = Some (Tup (Str sid) (Str (describe sid))) ∧
       columns t_friendly !! j = Some (Str (describe sid)) ∧
       columns t_in !! j = Some (Tup (Str sid) (Str (describe sid)))) ∧
    files w' = files w ∧
    trace w' = trace w ∧
    (∀ r, r ≠ df → (r < length (heap w))%nat → heap w' !! r = heap w !! r).
Proof.
  intros Ht. pose proof (lookup_lt_Some _ _ _ Ht) as Hlt.
  destruct (add_metadata_columns_views df t w Ht) as (Hout & Hfr & Hin).
  rewrite (add_metadata_columns_spec df t w Ht) in Hout, Hfr, Hin.
  eexists _, _, _, (dual_header t), (description_only t), (dual_header t).
  split; [by apply add_metadata_columns_spec |].
  split_and!; try done.
  - intros j sid Hj. split_and!;
      [by apply dual_header_label | by apply description_only_label
      | by apply dual_header_label].
  - intros r Hne Hr. cbn [heap].
    rewrite lookup_app_l by (rewrite length_insert, length_app; simpl; lia).
    rewrite list_lookup_insert_ne by done.
    by rewrite lookup_app_l by lia.
Qed.


(** ** The output section *)

Section write_outputs.
Context (E : Env) (args : Namespace) (m f : nat) (tm tf : DataFrame).
Context (w : World).
Hypothesis Hm : heap w !! m = Some tm.
Hypothesis Hf : heap w !! f = Some tf.

Let fo := friendly_out_of (out args).

Lemma write_outputs_primary_fails (e : exn) (residue : option string) :
  csv_io E (out args) = IoFail e residue →
  write_outputs E args m f w =
    (Raise e, mkWorld (heap w) (leave (out args) residue (files w))
                (trace w ++ [EvToCsv (out args)])).
Proof using Hm.
  intros Hio. unfold write_outputs, to_csv, write_file, bind, deref, emit,
    set_files, raise. rewrite Hm. simpl. rewrite Hio. simpl. done.
Qed.

Lemma write_outputs_primary_ok :
  csv_io E (out args) = IoOk →
  write_outputs E args m f w =
    match csv_io E fo with
    | IoOk =>
        (Return tt,
         mkWorld (heap w)
           (<[fo := csv_bytes E tf "Date"]> (files (before_friendly E args tm w)))
           (trace (before_friendly E args tm w)
            ++ [EvToCsv fo; EvStdout (wrote_friendly_message fo)]))
    | IoFail e residue =>
        (Raise e,
         mkWorld (heap w) (leave fo residue (files (before_friendly E args tm w)))
           (trace (before_friendly E args tm w) ++ [EvToCsv fo]))
    end.
Proof using Hm Hf.
  intros Hio. subst fo.
  unfold write_outputs, before_friendly, parquet_files, parquet_events.
  unfold to_csv, to_parquet, write_file, print, stderr_write, try_except.
  unfold bind, deref, emit, set_files, raise, ret.
  rewrite Hm. simpl. rewrite Hio. clear Hio. simpl.
  destruct (parquet args) as [[|c path]|]; simpl; rewrite ?Hm, ?Hf; simpl.
  - destruct (csv_io E (friendly_out_of (out args))) as [|e residue]; simpl;
      rewrite <- ?app_assoc; done.
  - destruct (parquet_io E (String c path)) as [|pe presidue]; simpl;
      rewrite ?Hf; simpl;
      (destruct (csv_io E (friendly_out_of (out args))) as [|e residue]);
      simpl; rewrite <- ?app_assoc; done.
  - destruct (csv_io E (friendly_out_of (out args))) as [|e residue]; simpl;
      rewrite <- ?app_assoc; done.
Qed.

End write_outputs.

(** ** The script as a whole *)

Lemma bind_Return {A B} (m : M A) (k : A → M B) (w w' : World) (a : A) :
  m w = (Return a, w') → bind m k w = k a w'.
Proof. intros H. unfold bind. by rewrite H. Qed.

Lemma bind_Raise {A B} (m : M A) (k : A → M B) (w w' : World) (e : exn) :
  m w = (Raise e, w') → bind m k w = (Raise e, w').
Proof. intros H. unfold bind. by rewrite H. Qed.

Lemma answered_answers (E : Env) (key sid : string) :
  answered E key sid → get_series E key sid = inr (answers E key sid).
Proof. intros [s Hs]. unfold answers. by rewrite Hs. Qed.

(** Either every identifier is answered, or there is a first one that is
    not. *)
Lemma first_failure (E : Env) (key : string) (ids : list string) :
  (∀ sid, sid ∈ ids → answered E key sid) ∨
  (∃ pre bad post e,
     ids = pre ++ bad :: post ∧
     (∀ sid, sid ∈ pre → answered E key sid) ∧
     get_series E key bad = inl e).
Proof.
  induction ids as [|sid rest IH]; [left; set_solver |].
  destruct (get_series E key sid) as [e|s] eqn:Hsid.
  - right. exists [], sid, rest, e. split_and!; [done | set_solver | done].
  - destruct IH as [Hall | (pre & bad & post & e & -> & Hpre & Hbad)].
    + left. intros sid' [->|?]%elem_of_cons; [by exists s | by apply Hall].
    + right. exists (sid :: pre), bad, post, e. split_and!; [done | | done].
      intros sid' [->|?]%elem_of_cons; [by exists s | by apply Hpre].
Qed.

Section main.
Context (E : Env) (argv : Argv) (w : World).

Let args := parse_args E argv.
Let ids := dict_keys SERIES.

Lemma main_no_key :
  truthy (api_key args) = false →
  main E argv w = (SysExit 1, log w [EvStderr missing_key_message]).
Proof.
  subst args. unfold main. intros Hkey.
  by destruct (api_key (parse_args E argv)) as [[|c k]|].
Qed.

Context (key : string).
Hypothesis Hkey : api_key args = Some key.
Hypothesis Hkey_ne : key ≠ "".

Lemma main_with_key :
  main E argv w =
    (do df <- fetch_all E args (mkFred key) ids;
     do '(df_multi, df_friendly) <- add_metadata_columns df;
     write_outputs E args df_multi df_friendly) w.
Proof using Hkey Hkey_ne.
  subst args ids. unfold main. rewrite Hkey. by destruct key.
Qed.

(** A request that raises ends the script on the spot. *)
Lemma main_fetch_raises (pre post : list string) (bad : string) (e : exn) :
  ids = pre ++ bad :: post →
  (∀ sid, sid ∈ pre → answered E key sid) →
  get_series E key bad = inl e →
  main E argv w =
    (Raise e,
     log w (loop_events (timeout args) (length ids) 1 pre ++ [EvGetSeries bad])).
Proof using Hkey Hkey_ne.
  intros Hids Hpre Hbad. rewrite main_with_key.
  apply bind_Raise. unfold fetch_all. apply bind_Raise. rewrite Hids.
  apply (fetch_loop_raise E args (mkFred key) _ (answers E key)); [| done].
  intros sid Hsid. by apply answered_answers, Hpre.
Qed.

Hypothesis Hok : ∀ sid, sid ∈ ids → answered E key sid.

Let T := catalog_table (answers E key).

(** With every request answered the script reaches its output section,
    holding the two labelled views of the merged table. *)
Lemma main_reaches_outputs :
  ∃ (m f : nat) (w1 : World),
    main E argv w = write_outputs E args m f w1 ∧
    heap w1 !! m = Some (dual_header T) ∧
    heap w1 !! f = Some (description_only T) ∧
    files w1 = files w ∧
    trace w1 = trace w ++ loop_events (timeout args) (length ids) 1 ids.
Proof using Hkey Hkey_ne Hok.
  set (w0 := mkWorld (heap w ++ [T]) (files w)
               (trace w ++ loop_events (timeout args) (length ids) 1 ids)).
  assert (fetch_all E args (mkFred key) ids w = (Return (length (heap w)), w0))
    as Hfetch.
  { apply (fetch_all_ok E args (mkFred key) (answers E key) ids).
    - intros sid Hsid. by apply answered_answers, Hok.
    - by apply concat_outer_nonempty. }
  assert (heap w0 !! length (heap w) = Some T) as HT.
  { subst w0. cbn [heap]. by rewrite lookup_app_r, Nat.sub_diag by lia. }
  pose proof (add_metadata_columns_spec _ _ _ HT) as Hlabel.
  destruct (add_metadata_columns_views _ _ _ HT) as (Hm & Hf & _).
  rewrite Hlabel in Hm, Hf. cbn [snd] in Hm, Hf.
  eexists _, _, _. split; [| split_and!; [exact Hm | exact Hf | done | done]].
  rewrite main_with_key.
  rewrite (bind_Return _ _ _ _ _ Hfetch).
  by rewrite (bind_Return _ _ _ _ _ Hlabel).
Qed.

End main.

Lemma run_no_key (E : Env) (argv : Argv) (w : World) :
  truthy (api_key (parse_args E argv)) = false →
  run E argv w = (1, log w [EvStderr missing_key_message]).
Proof. intros Hkey. unfold run. by rewrite main_no_key. Qed.

Lemma parse_args_no_credential (E : Env) (argv : Argv) :
  flag_api_key argv = None → getenv E "FRED_API_KEY" = None →
  api_key (parse_args E argv) = None.
Proof. intros Hflag Henv. unfold parse_args; simpl. by rewrite Hflag. Qed.

(** C3: without a credential, from the flag or from the environment, the
    script writes its error message, requests nothing, writes no file and
    exits with status 1. *)
Theorem main_missing_credential (E : Env) (argv : Argv) (w : World) :
  flag_api_key argv = None →
  getenv E "FRED_API_KEY" = None →
  run E argv w = (1, log w [EvStderr missing_key_message]) ∧
  (run E argv w).1 ≠ 0 ∧
  files (run E argv w).2 = files w ∧
  requests (trace (run E argv w).2) = requests (trace w) ∧
  trace (run E argv w).2 = trace w ++ [EvStderr missing_key_message].
Proof.
  intros Hflag Henv.
  assert (run E argv w = (1, log w [EvStderr missing_key_message])) as Hrun.
  { apply run_no_key. by rewrite parse_args_no_credential. }
  rewrite Hrun. split_and!; try done.
  unfold requests, log; simpl. by rewrite omap_app, app_nil_r.
Qed.

(** C9: an empty credential, given by the flag or found in the
    environment when there is no flag, is handled as a missing one: same
    message, same status 1, no request, no file. *)
Theorem main_empty_credential (E : Env) (argv : Argv) (w : World) :
  flag_api_key argv = Some "" ∨
  (flag_api_key argv = None ∧ getenv E "FRED_API_KEY" = Some "") →
  run E argv w = (1, log w [EvStderr missing_key_message]) ∧
  files (run E argv w).2 = files w ∧
  requests (trace (run E argv w).2) = requests (trace w) ∧
  (∀ E0 argv0,
     flag_api_key argv0 = None → getenv E0 "FRED_API_KEY" = None →
     run E argv w = run E0 argv0 w).
Proof.
  intros Hempty.
  assert (run E argv w = (1, log w [EvStderr missing_key_message])) as Hrun.
  { apply run_no_key. unfold parse_args; simpl.
    destruct Hempty as [-> | [-> ->]]; done. }
  rewrite Hrun. split_and!; try done.
  - unfold requests, log; simpl. by rewrite omap_app, app_nil_r.
  - intros E0 argv0 Hflag Henv. symmetry. apply run_no_key.
    by rewrite parse_args_no_credential.
Qed.

Lemma primary_content_lookup (E : Env) (args : Namespace) (tm tf : DataFrame)
    (fs : gmap string string) :
  <[friendly_out_of (out args) := csv_bytes E tf "Date"]>
    (parquet_files E args tm (<[out args := csv_bytes E tm "Date"]> fs))
    !! out args
  = Some (primary_content E args tm tf).
Proof.
  unfold primary_content, parquet_files, leave.
  destruct (decide (friendly_out_of (out args) = out args)) as [->|Hfo].
  { by rewrite lookup_insert_eq. }
  rewrite lookup_insert_ne by done.
  destruct (parquet args) as [[|c path]|]; [by rewrite lookup_insert_eq | |
    by rewrite lookup_insert_eq].
  destruct (decide (String c path = out args)) as [<-|Hp].
  - destruct (parquet_io E (String c path)) as [|e [part|]];
      by rewrite !lookup_insert_eq.
  - destruct (parquet_io E (String c path)) as [|e [part|]];
      rewrite ?lookup_insert_ne by done; by rewrite lookup_insert_eq.
Qed.

Section run.
Context (E : Env) (argv : Argv) (w : World).

Let args := parse_args E argv.
Let ids := dict_keys SERIES.
Let fo := friendly_out_of (out args).

Context (key : string).
Let T := catalog_table (answers E key).

(** A run in which every request and both CSV writes go through. *)
Lemma run_success :
  api_key args = Some key → key ≠ "" →
  (∀ sid, sid ∈ ids → answered E key sid) →
  csv_io E (out args) = IoOk →
  csv_io E fo = IoOk →
  ∃ hp : list DataFrame,
    run E argv w =
      (0, mkWorld hp
            (<[fo := csv_bytes E (description_only T) "Date"]>
               (parquet_files E args (dual_header T)
                  (<[out args := csv_bytes E (dual_header T) "Date"]> (files w))))
            (trace w ++ loop_events (timeout args) (length ids) 1 ids
             ++ [EvToCsv (out args); EvStdout (wrote_csv_message (out args))]
             ++ parquet_events E args
             ++ [EvToCsv fo; EvStdout (wrote_friendly_message fo)])).
Proof.
  intros Hkey Hne Hok Hout Hfo.
  destruct (main_reaches_outputs E argv w key Hkey Hne Hok)
    as (m & f & w1 & Hmain & Hm & Hf & Hfiles & Htrace).
  subst args ids fo T.
  exists (heap w1). unfold run. rewrite Hmain.
  rewrite (write_outputs_primary_ok E _ m f _ _ w1 Hm Hf Hout), Hfo.
  unfold before_friendly. cbn [files trace].
  rewrite Hfiles, Htrace. cbv beta iota. cbn [exit_status].
  by rewrite <- !app_assoc.
Qed.

(** A run ends with status 0 only if a credential was given and every
    request and both CSV writes went through. *)
Lemma run_zero_inv :
  (run E argv w).1 = 0 →
  ∃ k : string,
    api_key args = Some k ∧ k ≠ "" ∧
    (∀ sid, sid ∈ ids → answered E k sid) ∧
    csv_io E (out args) = IoOk ∧
    csv_io E fo = IoOk.
Proof.
  intros Hzero. subst args ids fo.
  destruct (truthy (api_key (parse_args E argv))) eqn:Htruthy.
  2: { by rewrite run_no_key in Hzero. }
  destruct (api_key (parse_args E argv)) as [[|c k']|] eqn:Hkey; try done.
  set (k := String c k') in *. exists k.
  assert (k ≠ "") as Hne by done.
  destruct (first_failure E k (dict_keys SERIES))
    as [Hok | (pre & bad & post & e & Hids & Hpre & Hbad)].
  2: { unfold run in Hzero.
       by rewrite (main_fetch_raises E argv w k Hkey Hne pre post bad e)
         in Hzero. }
  destruct (main_reaches_outputs E argv w k Hkey Hne Hok)
    as (m & f & w1 & Hmain & Hm & Hf & _).
  unfold run in Hzero. rewrite Hmain in Hzero.
  destruct (csv_io E (out (parse_args E argv))) as [|e residue] eqn:Hout.
  2: { by rewrite (write_outputs_primary_fails E _ m f _ w1 Hm e residue)
         in Hzero. }
  rewrite (write_outputs_primary_ok E _ m f _ _ w1 Hm Hf Hout) in Hzero.
  by destruct (csv_io E (friendly_out_of (out (parse_args E argv)))).
Qed.

End run.

Lemma NoDup_catalog : NoDup (dict_keys SERIES).
Proof. apply (bool_decide_unpack _). by vm_compute. Qed.

(** C5: a request that raises ends the run at once.  The identifiers
    before the failing one are requested, the failing one is requested
    once, those after it never; nothing is written, the file system is as
    before, and the process ends with status 1. *)
Theorem main_fetch_failure_aborts (E : Env) (argv : Argv) (w : World)
    (key : string) :
  api_key (parse_args E argv) = Some key →
  key ≠ "" →
  (∃ sid, sid ∈ dict_keys SERIES ∧ ¬ answered E key sid) →
  ∃ (pre post : list string) (bad : string) (e : exn) (tr : list event),
    dict_keys SERIES = pre ++ bad :: post ∧
    (∀ sid, sid ∈ pre → answered E key sid) ∧
    get_series E key bad = inl e ∧
    main E argv w = (Raise e, log w tr) ∧
    (run E argv w).1 = 1 ∧
    files (run E argv w).2 = files w ∧
    requests tr = pre ++ [bad] ∧
    (bad ∉ pre) ∧
    (∀ sid, sid ∈ post → sid ∉ requests tr) ∧
    Forall (λ ev, is_write ev = false) tr.
Proof.
  intros Hkey Hne (sid0 & Hsid0 & Hfail).
  destruct (first_failure E key (dict_keys SERIES))
    as [Hok | (pre & bad & post & e & Hids & Hpre & Hbad)].
  { destruct Hfail. by apply Hok. }
  pose proof (main_fetch_raises E argv w key Hkey Hne pre post bad e
                Hids Hpre Hbad) as Hmain.
  assert (bad ∉ pre) as Hnotin.
  { intros [s Hs]%Hpre. congruence. }
  pose proof NoDup_catalog as Hnd. rewrite Hids in Hnd.
  apply NoDup_app in Hnd as (_ & Hdisj & [Hbadpost _]%NoDup_cons).
  exists pre, post, bad, e,
    (loop_events (timeout (parse_args E argv)) (length (dict_keys SERIES)) 1 pre
     ++ [EvGetSeries bad]).
  assert (requests (loop_events (timeout (parse_args E argv))
                      (length (dict_keys SERIES)) 1 pre ++ [EvGetSeries bad])
          = pre ++ [bad]) as Hreq.
  { unfold requests. rewrite omap_app. fold (requests (loop_events
      (timeout (parse_args E argv)) (length (dict_keys SERIES)) 1 pre)).
    by rewrite requests_loop_events. }
  split_and!.
  - done.
  - done.
  - done.
  - exact Hmain.
  - unfold run. by rewrite Hmain.
  - unfold run. by rewrite Hmain.
  - exact Hreq.
  - done.
  - intros sid Hsid. rewrite Hreq.
    intros [Hin | ->%list_elem_of_singleton]%elem_of_app; [| done].
    by apply (Hdisj sid Hin), elem_of_cons; right.
  - apply Forall_app. split; [apply writes_loop_events | by repeat constructor].
Qed.

(** C4: the Parquet write is configured and raises, the two CSV writes go
    through.  The error is reported on the error stream, the run goes on,
    the secondary CSV file is written with the description-only view, and
    the process ends with status 0. *)
Theorem parquet_failure_is_survived (E : Env) (argv : Argv) (w : World)
    (key path : string) (e : exn) (residue : option string) :
  api_key (parse_args E argv) = Some key →
  key ≠ "" →
  (∀ sid, sid ∈ dict_keys SERIES → answered E key sid) →
  parquet (parse_args E argv) = Some path →
  path ≠ "" →
  parquet_io E path = IoFail e residue →
  csv_io E (out (parse_args E argv)) = IoOk →
  csv_io E (friendly_out_of (out (parse_args E argv))) = IoOk →
  (run E argv w).1 = 0 ∧
  trace (run E argv w).2 =
    trace w
    ++ loop_events (timeout (parse_args E argv)) (length (dict_keys SERIES)) 1
         (dict_keys SERIES)
    ++ [EvToCsv (out (parse_args E argv));
        EvStdout (wrote_csv_message (out (parse_args E argv)));
        EvToParquet path;
        EvStderr (parquet_failed_message e);
        EvToCsv (friendly_out_of (out (parse_args E argv)));
        EvStdout (wrote_friendly_message
                    (friendly_out_of (out (parse_args E argv))))] ∧
  files (run E argv w).2 !! friendly_out_of (out (parse_args E argv)) =
    Some (csv_bytes E (description_only (catalog_table (answers E key))) "Date").
Proof.
  intros Hkey Hne Hok Hpq Hpath Hpio Hout Hfo.
  destruct (run_success E argv w key Hkey Hne Hok Hout Hfo) as [hp ->].
  cbn [fst snd trace files]. split_and!; [done | |].
  - unfold parquet_events. rewrite Hpq. destruct path as [|c path]; [done |].
    by rewrite Hpio.
  - by rewrite lookup_insert_eq.
Qed.

(** C10: a primary path without [".csv"] is also the secondary path, so
    the description-only write goes to the file the dual-header write has
    produced, and the file ends up with the description-only table. *)
Theorem no_csv_in_out_overwrites_primary (E : Env) (argv : Argv) (w : World)
    (key : string) :
  ¬ Str.occurs ".csv" (out (parse_args E argv)) →
  api_key (parse_args E argv) = Some key →
  key ≠ "" →
  (∀ sid, sid ∈ dict_keys SERIES → answered E key sid) →
  csv_io E (out (parse_args E argv)) = IoOk →
  friendly_out_of (out (parse_args E argv)) = out (parse_args E argv) ∧
  (run E argv w).1 = 0 ∧
  trace (run E argv w).2 =
    trace w
    ++ loop_events (timeout (parse_args E argv)) (length (dict_keys SERIES)) 1
         (dict_keys SERIES)
    ++ [EvToCsv (out (parse_args E argv));
        EvStdout (wrote_csv_message (out (parse_args E argv)))]
    ++ parquet_events E (parse_args E argv)
    ++ [EvToCsv (out (parse_args E argv));
        EvStdout (wrote_friendly_message (out (parse_args E argv)))] ∧
  files (run E argv w).2 !! out (parse_args E argv) =
    Some (csv_bytes E (description_only (catalog_table (answers E key))) "Date").
Proof.
  intros Hno Hkey Hne Hok Hout.
  pose proof (friendly_out_of_no_csv _ Hno) as Hsame.
  assert (csv_io E (friendly_out_of (out (parse_args E argv))) = IoOk) as Hfo
    by (by rewrite Hsame).
  destruct (run_success E argv w key Hkey Hne Hok Hout Hfo) as [hp ->].
  cbn [fst snd trace files]. rewrite Hsame.
  split_and!; [done.. |]. by rewrite lookup_insert_eq.
Qed.

(** C8: two runs with the same configuration, the same answers of the
    provider for every catalog identifier and the same behaviour of the
    writers, whatever state each starts from.  If one ends with status 0
    so does the other, and the primary output files hold the same bytes. *)
Theorem primary_output_deterministic (E1 E2 : Env) (argv : Argv)
    (w1 w2 : World) :
  parse_args E1 argv = parse_args E2 argv →
  (∀ key sid, sid ∈ dict_keys SERIES →
     get_series E1 key sid = get_series E2 key sid) →
  (∀ path, csv_io E1 path = csv_io E2 path) →
  (∀ path, parquet_io E1 path = parquet_io E2 path) →
  (∀ t l, csv_bytes E1 t l = csv_bytes E2 t l) →
  (∀ t, parquet_bytes E1 t = parquet_bytes E2 t) →
  (run E1 argv w1).1 = 0 →
  (run E2 argv w2).1 = 0 ∧
  ∃ bytes : string,
    files (run E1 argv w1).2 !! out (parse_args E1 argv) = Some bytes ∧
    files (run E2 argv w2).2 !! out (parse_args E2 argv) = Some bytes.
Proof.
  intros Hargs Hget Hcsv Hpq Hcsvb Hpqb Hzero.
  destruct (run_zero_inv E1 argv w1 Hzero)
    as (key & Hkey & Hne & Hok & Hout & Hfo).
  assert (∀ sid, sid ∈ dict_keys SERIES → answered E2 key sid) as Hok2.
  { intros sid Hsid. destruct (Hok sid Hsid) as [s Hs]. exists s.
    by rewrite <- Hget. }
  assert (catalog_table (answers E1 key) = catalog_table (answers E2 key))
    as HT.
  { unfold catalog_table, fetched. do 2 f_equal.
    apply list_fmap_ext. intros i sid Hi. unfold answers.
    by rewrite Hget by (by eapply list_elem_of_lookup_2). }
  destruct (run_success E1 argv w1 key Hkey Hne Hok Hout Hfo) as [hp1 ->].
  rewrite Hargs in Hkey, Hout, Hfo. rewrite Hcsv in Hout, Hfo.
  destruct (run_success E2 argv w2 key Hkey Hne Hok2 Hout Hfo) as [hp2 ->].
  cbn [fst snd files]. split; [done |].
  eexists. rewrite !primary_content_lookup. split; [done |].
  rewrite <- Hargs, <- HT. f_equal.
  unfold primary_content.
  rewrite !Hcsvb. repeat case_match; try done; congruence.
Qed.

(** * Worked examples and instances of the theorems *)

(** The example of the specification: a two-observation series and a
    one-observation series on disjoint dates give three rows. *)
Example outer_join_disjoint_dates :
  rows (sort_index (outer_join
          [("A", <[32 := 2%float]> {[1 := 1%float]}); ("B", {[15 := 9%float]})]))
  = [(1, [1%float; nan]); (15, [nan; 9%float]); (32, [2%float; nan])].
Proof. vm_compute. reflexivity. Qed.

Example fetch_all_two_series :
  fetch_all Sample.env (parse_args Sample.env Sample.argv) Sample.fred
    ["DGS10"; "UNRATE"] Sample.world0
  = (Return 0%nat,
     mkWorld
       [ {| rows := [(1, [2.5%float; nan]); (2, [nan; 4%float]);
                     (3, [1.5%float; nan])];
            columns := [Str "DGS10"; Str "UNRATE"];
            col_names := [] |} ]
       ∅
       [EvGetSeries "DGS10"; EvSleep 0.5%float; EvGetSeries "UNRATE"]).
Proof. vm_compute. reflexivity. Qed.

Example replace_every_occurrence :
  Str.replace ".csv" "_friendly.csv" "x.csv.csv" = "x_friendly.csv_friendly.csv".
Proof. reflexivity. Qed.

Lemma fetch_all_outer_join_witness :
  ["DGS10"; "UNRATE"] ≠ [] ∧
  ∃ df : DataFrame,
    heap (fetch_all Sample.env (parse_args Sample.env Sample.argv) Sample.fred
            ["DGS10"; "UNRATE"] Sample.world0).2 !! 0%nat = Some df ∧
    StronglySorted Z.lt (index df) ∧
    length (index df)
      = size (union_indexes (fetched Sample.observations ["DGS10"; "UNRATE"])) ∧
    columns df = [Str "DGS10"; Str "UNRATE"].
Proof.
  split; [done |].
  destruct (fetch_all_outer_join Sample.env (parse_args Sample.env Sample.argv)
              Sample.fred Sample.observations ["DGS10"; "UNRATE"] Sample.world0)
    as (df & _ & Hdf & Hsorted & _ & Hlen & Hcols & _).
  - done.
  - intros sid _. reflexivity.
  - exists df. split_and!; done.
Defined.


Lemma main_missing_credential_witness :
  run Sample.env Sample.argv_bare Sample.world0
  = (1, log Sample.world0 [EvStderr missing_key_message]).
Proof.
  apply (main_missing_credential Sample.env Sample.argv_bare Sample.world0);
    reflexivity.
Defined.

Lemma main_empty_credential_witness :
  run Sample.env (mkArgv (Some "") None None None) Sample.world0
  = (1, log Sample.world0 [EvStderr missing_key_message]).
Proof.
  apply (main_empty_credential Sample.env (mkArgv (Some "") None None None)
           Sample.world0).
  left. reflexivity.
Defined.

Lemma parquet_failure_is_survived_witness :
  (run Sample.env Sample.argv Sample.world0).1 = 0.
Proof.
  apply (parquet_failure_is_survived Sample.env Sample.argv Sample.world0
           "0123456789abcdef" "fred.parquet"
           (Exception "No module named 'pyarrow'") None).
  - reflexivity.
  - done.
  - intros sid _. by exists (Sample.observations sid).
  - reflexivity.
  - done.
  - reflexivity.
  - reflexivity.
  - reflexivity.
Defined.

Lemma main_fetch_failure_aborts_witness :
  ∃ (pre post : list string) (bad : string),
    dict_keys SERIES = pre ++ bad :: post ∧
    (run Sample.env_rejecting Sample.argv Sample.world0).1 = 1.
Proof.
  destruct (main_fetch_failure_aborts Sample.env_rejecting Sample.argv
              Sample.world0 "0123456789abcdef")
    as (pre & post & bad & e & tr & Hids & _ & _ & _ & Hstatus & _).
  - reflexivity.
  - done.
  - exists "VIXCLS". split.
    + do 4 (apply elem_of_cons; right). apply elem_of_cons. by left.
    + intros [s Hs]. discriminate Hs.
  - by exists pre, post, bad.
Defined.

Lemma add_metadata_columns_headers_only_witness :
  ∃ (df_out df_friendly : nat) (w' : World) (t_out t_friendly : DataFrame),
    add_metadata_columns 0 (mkWorld [Sample.table] ∅ [])
      = (Return (df_out, df_friendly), w') ∧
    heap w' !! df_out = Some t_out ∧
    heap w' !! df_friendly = Some t_friendly ∧
    values t_out = values Sample.table ∧
    values t_friendly = values Sample.table.
Proof.
  destruct (add_metadata_columns_headers_only 0 Sample.table
              (mkWorld [Sample.table] ∅ []))
    as (df_out & df_friendly & w' & t_out & t_friendly & t_in
        & Hrun & Hout & Hfr & _ & Hv1 & Hv2 & _).
  - reflexivity.
  - by exists df_out, df_friendly, w', t_out, t_friendly.
Defined.

(** C6 (as stated) fails: the call changes the table it is given.  The
    one-column table [Sample.table] has the header [DGS10] before the call
    and the header [(DGS10, Market Yield ...)] with named levels after it. *)
Lemma add_metadata_columns_mutates_input :
  heap (mkWorld [Sample.table] ∅ []) !! 0%nat = Some Sample.table ∧
  heap (add_metadata_columns 0 (mkWorld [Sample.table] ∅ [])).2 !! 0%nat
    = Some {| rows := [(1, [2.5%float]); (3, [1.5%float])];
              columns := [Tup (Str "DGS10")
                            (Str "Market Yield on U.S. Treasury (10Y CMT)")];
              col_names := ["FRED_ID"; "Description"] |} ∧
  heap (add_metadata_columns 0 (mkWorld [Sample.table] ∅ [])).2 !! 0%nat
    ≠ heap (mkWorld [Sample.table] ∅ []) !! 0%nat.
Proof. split_and!; [reflexivity | reflexivity | discriminate]. Qed.

Lemma no_csv_in_out_overwrites_primary_witness :
  friendly_out_of "fred.txt" = "fred.txt" ∧
  files (run Sample.env Sample.argv_txt Sample.world1).2 !! "fred.txt"
  = Some (csv_bytes Sample.env
            (description_only
               (catalog_table (answers Sample.env "0123456789abcdef"))) "Date").
Proof.
  destruct (no_csv_in_out_overwrites_primary Sample.env Sample.argv_txt
              Sample.world1 "0123456789abcdef")
    as (Hsame & _ & _ & Hfile).
  - change (out (parse_args Sample.env Sample.argv_txt)) with "fred.txt".
    no_occurrence.
  - reflexivity.
  - done.
  - intros sid _. by exists (Sample.observations sid).
  - reflexivity.
  - split; [exact Hsame | exact Hfile].
Defined.

Lemma primary_output_deterministic_witness :
  (run Sample.env_elsewhere Sample.argv Sample.world1).1 = 0 ∧
  ∃ bytes : string,
    files (run Sample.env Sample.argv Sample.world0).2 !! "fred_series_all.csv"
      = Some bytes ∧
    files (run Sample.env_elsewhere Sample.argv Sample.world1).2
      !! "fred_series_all.csv" = Some bytes.
Proof.
  apply (primary_output_deterministic Sample.env Sample.env_elsewhere
           Sample.argv Sample.world0 Sample.world1).
  - reflexivity.
  - intros key sid Hsid. simpl.
    destruct (decide (sid = "GDP")) as [->|]; [| reflexivity].
    exfalso. revert Hsid. unfold dict_keys, SERIES. simpl.
    rewrite !elem_of_cons, elem_of_nil. intuition discriminate.
  - reflexivity.
  - reflexivity.
  - reflexivity.
  - reflexivity.
  - vm_compute. reflexivity.
Defined.


(** * Further properties of the script *)

(** ** Every run is one of five *)

Section outcomes.
Context (E : Env) (argv : Argv) (w : World) (key : string).
Hypothesis Hkey : api_key (parse_args E argv) = Some key.
Hypothesis Hne : key ≠ "".

Lemma run_request_raises (pre post : list string) (bad : string) (e : exn) :
  dict_keys SERIES = pre ++ bad :: post →
  (∀ sid, sid ∈ pre → answered E key sid) →
  get_series E key bad = inl e →
  run E argv w =
    (1, log w (loop_events (timeout (parse_args E argv))
                 (length (dict_keys SERIES)) 1 pre ++ [EvGetSeries bad])).
Proof using Hkey Hne.
  intros Hids Hpre Hbad. unfold run.
  by rewrite (main_fetch_raises E argv w key Hkey Hne pre post bad e).
Qed.

Hypothesis Hok : ∀ sid, sid ∈ dict_keys SERIES → answered E key sid.

Lemma run_primary_write_raises (e : exn) (residue : option string) :
  csv_io E (out (parse_args E argv)) = IoFail e residue →
  ∃ hp : list DataFrame,
    run E argv w =
      (1, mkWorld hp (leave (out (parse_args E argv)) residue (files w))
            (trace w
             ++ loop_events (timeout (parse_args E argv))
                  (length (dict_keys SERIES)) 1 (dict_keys SERIES)
             ++ [EvToCsv (out (parse_args E argv))])).
Proof using Hkey Hne Hok.
  intros Hout.
  destruct (main_reaches_outputs E argv w key Hkey Hne Hok)
    as (m & f & w1 & Hmain & Hm & Hf & Hfiles & Htrace).
  exists (heap w1). unfold run. rewrite Hmain.
  rewrite (write_outputs_primary_fails E _ m f _ w1 Hm e residue Hout).
  cbv beta iota. cbn [exit_status]. rewrite Hfiles, Htrace.
  by rewrite <- !app_assoc.
Qed.

Lemma run_friendly_write_raises (e : exn) (residue : option string) :
  csv_io E (out (parse_args E argv)) = IoOk →
  csv_io E (friendly_out_of (out (parse_args E argv))) = IoFail e residue →
  ∃ hp : list DataFrame,
    run E argv w =
      (1, mkWorld hp
            (leave (friendly_out_of (out (parse_args E argv))) residue
               (parquet_files E (parse_args E argv)
                  (dual_header (catalog_table (answers E key)))
                  (<[out (parse_args E argv) :=
                       csv_bytes E (dual_header (catalog_table (answers E key)))
                         "Date"]> (files w))))
            (trace w
             ++ loop_events (timeout (parse_args E argv))
                  (length (dict_keys SERIES)) 1 (dict_keys SERIES)
             ++ [EvToCsv (out (parse_args E argv));
                 EvStdout (wrote_csv_message (out (parse_args E argv)))]
             ++ parquet_events E (parse_args E argv)
             ++ [EvToCsv (friendly_out_of (out (parse_args E argv)))])).
Proof using Hkey Hne Hok.
  intros Hout Hfo.
  destruct (main_reaches_outputs E argv w key Hkey Hne Hok)
    as (m & f & w1 & Hmain & Hm & Hf & Hfiles & Htrace).
  exists (heap w1). unfold run. rewrite Hmain.
  rewrite (write_outputs_primary_ok E _ m f _ _ w1 Hm Hf Hout), Hfo.
  unfold before_friendly. cbn [files trace].
  rewrite Hfiles, Htrace. cbv beta iota. cbn [exit_status].
  by rewrite <- !app_assoc.
Qed.

End outcomes.

Lemma run_outcomes (E : Env) (argv : Argv) (w : World) : run_outcome E argv w.
Proof.
  destruct (truthy (api_key (parse_args E argv))) eqn:Htruthy.
  2: { apply NoCredential; [done | by apply run_no_key]. }
  destruct (api_key (parse_args E argv)) as [[|c k']|] eqn:Hkey; try done.
  set (key := String c k') in *.
  assert (key ≠ "") as Hne by done.
  destruct (first_failure E key (dict_keys SERIES))
    as [Hok | (pre & bad & post & e & Hids & Hpre & Hbad)].
  2: { eapply (RequestRaised E argv w key pre post bad e); try done.
       by apply (run_request_raises E argv w key Hkey Hne pre post bad e). }
  destruct (csv_io E (out (parse_args E argv))) as [|e residue] eqn:Hout.
  2: { destruct (run_primary_write_raises E argv w key Hkey Hne Hok e residue Hout)
         as [hp Hrun].
       by eapply (PrimaryWriteRaised E argv w key e residue hp). }
  destruct (csv_io E (friendly_out_of (out (parse_args E argv))))
    as [|e residue] eqn:Hfo.
  2: { destruct (run_friendly_write_raises E argv w key Hkey Hne Hok e residue
                   Hout Hfo) as [hp Hrun].
       by eapply (FriendlyWriteRaised E argv w key e residue hp). }
  destruct (run_success E argv w key Hkey Hne Hok Hout Hfo) as [hp Hrun].
  by eapply (Completed E argv w key hp).
Qed.

(** ** The secondary path, again *)

Module FriendlyFacts.
Import Str.
#[local] Arguments String.append : simpl nomatch.

(** While [skip] characters are dropped the output may fall short of the
    input by that many; a replacement only ever adds to it. *)
Lemma replace_from_length (s : string) :
  ∀ skip : nat,
    (String.length s ≤
     String.length (replace_from ".csv" "_friendly.csv" skip s) + skip)%nat.
Proof.
  induction s as [|c s IH]; intros skip; [simpl; lia |].
  cbn [replace_from]. destruct skip as [|k].
  - destruct (String.prefix ".csv" (String c s)).
    + rewrite StrFacts.length_append. specialize (IH 3%nat).
      change (String.length ".csv" - 1)%nat with 3%nat.
      change (String.length "_friendly.csv") with 13%nat.
      cbn [String.length]. lia.
    + specialize (IH 0%nat). cbn [String.length]. lia.
  - specialize (IH k). cbn [String.length]. lia.
Qed.

Lemma replace_occurring_longer (s : string) :
  occurs ".csv" s →
  (String.length s < String.length (replace ".csv" "_friendly.csv" s))%nat.
Proof.
  unfold replace. induction s as [|c s IH]; intros (a & b & Hab).
  - destruct a; discriminate.
  - cbn [replace_from].
    destruct (String.prefix ".csv" (String c s)) eqn:Hp.
    + rewrite StrFacts.length_append.
      pose proof (replace_from_length s 3) as Hlen.
      change (String.length ".csv" - 1)%nat with 3%nat.
      change (String.length "_friendly.csv") with 13%nat.
      cbn [String.length]. lia.
    + destruct a as [|c' a].
      * simpl in Hab. rewrite Hab in Hp. simpl in Hp. by destruct b.
      * simpl in Hab. injection Hab as -> ->.
        assert (occurs ".csv" (a +:+ ".csv" +:+ b)) as Hin by (by exists a, b).
        specialize (IH Hin). cbn [String.length]. lia.
Qed.

End FriendlyFacts.

Lemma friendly_out_of_occurs_differs (out : string) :
  Str.occurs ".csv" out → friendly_out_of out ≠ out.
Proof.
  intros Hocc Hsame.
  pose proof (FriendlyFacts.replace_occurring_longer out Hocc) as Hlen.
  unfold friendly_out_of in Hsame. rewrite Hsame in Hlen. lia.
Qed.

(** X1: The secondary path is the primary path exactly when the primary path
    has no [".csv"] in it: with an occurrence the path gets longer. *)
Theorem friendly_out_of_same_iff (out : string) :
  friendly_out_of out = out ↔ ¬ Str.occurs ".csv" out.
Proof.
  split.
  - intros Hsame Hocc. by apply (friendly_out_of_occurs_differs out).
  - apply StrFacts.replace_absent.
Qed.

(** The secondary path is never shorter than the primary path. *)
Lemma friendly_out_of_length (out : string) :
  (String.length out ≤ String.length (friendly_out_of out))%nat.
Proof.
  pose proof (FriendlyFacts.replace_from_length out 0) as H.
  unfold friendly_out_of, Str.replace. lia.
Qed.


(** ** What every run does and does not do *)


Lemma writes_app (t1 t2 : list event) : writes (t1 ++ t2) = writes t1 ++ writes t2.
Proof. apply omap_app. Qed.

Lemma writes_loop_events_nil (d : float) (ids : list string) :
  ∀ n i : nat, writes (loop_events d n i ids) = [].
Proof.
  induction ids as [|sid rest IH]; intros n i; [done |].
  cbn [loop_events]. unfold writes in *. cbn [omap list_omap].
  rewrite omap_app, IH.
  by destruct (PrimFloat.ltb 0 d && bool_decide (i < n)%nat).
Qed.


Lemma writes_parquet_events (E : Env) (args : Namespace) :
  writes (parquet_events E args) =
  match parquet args with
  | Some (String _ _ as path) => [path]
  | _ => []
  end.
Proof.
  unfold parquet_events.
  destruct (parquet args) as [[|c path]|]; [done | | done].
  by destruct (parquet_io E (String c path)).
Qed.







(** X5: In every run the writes attempted are an initial segment of: primary
    CSV, Parquet file if configured, friendly CSV.  So the friendly CSV is
    never attempted before the primary one, and no other path is written. *)
Theorem run_writes_in_order (E : Env) (argv : Argv) (w : World) :
  ∃ tr : list event,
    trace (run E argv w).2 = trace w ++ tr ∧
    writes tr `prefix_of` intended_writes (parse_args E argv).
Proof.
  destruct (run_outcomes E argv w) as
    [? -> | key pre post bad e _ _ Hids _ _ ->
    | ???? _ _ _ _ -> | ???? _ _ _ _ _ -> | ?? _ _ _ _ _ ->];
    cbn [snd trace log]; eexists; (split; [reflexivity |]);
    unfold intended_writes.
  - by eexists.
  - rewrite writes_app, writes_loop_events_nil. by eexists.
  - rewrite writes_app, writes_loop_events_nil. by eexists.
  - rewrite !writes_app, writes_loop_events_nil, writes_parquet_events.
    exists []. by rewrite app_nil_r.
  - rewrite !writes_app, writes_loop_events_nil, writes_parquet_events.
    exists []. by rewrite app_nil_r.
Qed.

(** ** Failing and succeeding writes *)

(** X6: If the primary CSV cannot be written the run ends there with status 1:
    the Parquet file and the friendly CSV are not attempted, nothing is
    printed, and the only change to the file system is what the failed
    write left at the primary path. *)
Theorem primary_write_failure_aborts (E : Env) (argv : Argv) (w : World)
    (key : string) (e : exn) (residue : option string) :
  api_key (parse_args E argv) = Some key →
  key ≠ "" →
  (∀ sid, sid ∈ dict_keys SERIES → answered E key sid) →
  csv_io E (out (parse_args E argv)) = IoFail e residue →
  (run E argv w).1 = 1 ∧
  files (run E argv w).2 = leave (out (parse_args E argv)) residue (files w) ∧
  trace (run E argv w).2 =
    trace w
    ++ loop_events (timeout (parse_args E argv)) (length (dict_keys SERIES)) 1
         (dict_keys SERIES)
    ++ [EvToCsv (out (parse_args E argv))].
Proof.
  intros Hkey Hne Hok Hout.
  by destruct (run_primary_write_raises E argv w key Hkey Hne Hok e residue Hout)
    as [hp ->].
Qed.

Lemma primary_write_failure_aborts_witness :
  (run Faulty.env_readonly Sample.argv Sample.world1).1 = 1 ∧
  files (run Faulty.env_readonly Sample.argv Sample.world1).2
  = files Sample.world1.
Proof.
  destruct (primary_write_failure_aborts Faulty.env_readonly Sample.argv
              Sample.world1 "0123456789abcdef" (Exception "Permission denied")
              None) as (Hstatus & Hfiles & _).
  - reflexivity.
  - done.
  - intros sid _. by exists (Sample.observations sid).
  - reflexivity.
  - split; [exact Hstatus | exact Hfiles].
Defined.







(** ** What the flags change and what they do not *)








(** X13: An empty [--parquet] path counts as none: the run is the same as
    without the flag. *)
Theorem run_empty_parquet_path (E : Env) (argv : Argv) (w : World) :
  flag_parquet argv = Some "" →
  run E argv w = run E (with_parquet argv None) w.
Proof.
  intros Hflag. destruct argv. simpl in Hflag. subst. reflexivity.
Qed.

Lemma run_empty_parquet_path_witness :
  run Sample.env (with_parquet Sample.argv (Some "")) Sample.world0
  = run Sample.env (with_parquet (with_parquet Sample.argv (Some "")) None)
      Sample.world0.
Proof.
  apply (run_empty_parquet_path Sample.env
           (with_parquet Sample.argv (Some "")) Sample.world0).
  reflexivity.
Defined.


(** ** More on fetch_all and the merge *)







(** X18: For the table built from the catalog, whatever the provider answers,
    the dual header is the catalog's (identifier, description) pairs in
    catalog order under the level names FRED_ID and Description, and the
    friendly header is the descriptions: the fallback to the identifier is
    never taken. *)
Theorem catalog_headers (resp : string → Series) :
  columns (dual_header (catalog_table resp))
    = (λ kv : string * string, Tup (Str kv.1) (Str kv.2)) <$> SERIES ∧
  col_names (dual_header (catalog_table resp)) = ["FRED_ID"; "Description"] ∧
  columns (description_only (catalog_table resp))
    = (λ kv : string * string, Str kv.2) <$> SERIES ∧
  length (columns (description_only (catalog_table resp))) = 13%nat.
Proof. split_and!; reflexivity. Qed.

(** X19: The two views are new tables: the references returned differ from
    each other and from the input, they were not in use before, and the
    heap has grown by exactly these two. *)
Theorem add_metadata_columns_fresh_views (df : nat) (t : DataFrame) (w : World) :
  heap w !! df = Some t →
  ∃ (df_out df_friendly : nat) (w' : World),
    add_metadata_columns df w = (Return (df_out, df_friendly), w') ∧
    df_out ≠ df_friendly ∧ df_out ≠ df ∧ df_friendly ≠ df ∧
    heap w !! df_out = None ∧ heap w !! df_friendly = None ∧
    length (heap w') = (length (heap w) + 2)%nat.
Proof.
  intros Ht. pose proof (lookup_lt_Some _ _ _ Ht) as Hlt.
  eexists _, _, _. split; [by apply add_metadata_columns_spec |].
  split_and!; try lia.
  - apply lookup_ge_None. lia.
  - apply lookup_ge_None. lia.
  - cbn [heap]. rewrite length_app, length_insert, length_app. simpl. lia.
Qed.

Lemma add_metadata_columns_fresh_views_witness :
  ∃ (df_out df_friendly : nat) (w' : World),
    add_metadata_columns 0 (mkWorld [Sample.table] ∅ [])
      = (Return (df_out, df_friendly), w') ∧
    df_out ≠ df_friendly ∧ df_out ≠ 0%nat ∧ df_friendly ≠ 0%nat.
Proof.
  destruct (add_metadata_columns_fresh_views 0 Sample.table
              (mkWorld [Sample.table] ∅ []))
    as (df_out & df_friendly & w' & Hrun & H1 & H2 & H3 & _).
  - reflexivity.
  - by exists df_out, df_friendly, w'.
Defined.

(** X14: The bare command line, the credential coming from the environment:
    if every request is answered and the two CSV writes go through, the
    run requests the catalog without sleeping, writes
    [fred_series_all.csv] and [fred_series_all_friendly.csv], attempts no
    Parquet file and ends with status 0. *)
Theorem run_defaults (E : Env) (argv : Argv) (w : World) (key : string) :
  flag_api_key argv = None → flag_out argv = None →
  flag_parquet argv = None → flag_timeout argv = None →
  getenv E "FRED_API_KEY" = Some key →
  key ≠ "" →
  (∀ sid, sid ∈ dict_keys SERIES → answered E key sid) →
  csv_io E "fred_series_all.csv" = IoOk →
  csv_io E "fred_series_all_friendly.csv" = IoOk →
  (run E argv w).1 = 0 ∧
  trace (run E argv w).2 =
    trace w ++ (EvGetSeries <$> dict_keys SERIES)
    ++ [EvToCsv "fred_series_all.csv";
        EvStdout (wrote_csv_message "fred_series_all.csv");
        EvToCsv "fred_series_all_friendly.csv";
        EvStdout (wrote_friendly_message "fred_series_all_friendly.csv")] ∧
  files (run E argv w).2 !! "fred_series_all.csv" =
    Some (csv_bytes E (dual_header (catalog_table (answers E key))) "Date") ∧
  files (run E argv w).2 !! "fred_series_all_friendly.csv" =
    Some (csv_bytes E (description_only (catalog_table (answers E key))) "Date").
Proof.
  intros Hf1 Hf2 Hf3 Hf4 Henv Hne Hok Hout Hfo.
  assert (parse_args E argv
          = mkNamespace (Some key) "fred_series_all.csv" None 0%float) as Hargs.
  { unfold parse_args. by rewrite Hf1, Hf2, Hf3, Hf4, Henv. }
  assert (api_key (parse_args E argv) = Some key) as Hkey by (by rewrite Hargs).
  destruct (run_success E argv w key Hkey Hne Hok) as [hp ->];
    rewrite ?Hargs; try done.
  cbn [fst snd files trace out parquet timeout].
  change (friendly_out_of "fred_series_all.csv")
    with "fred_series_all_friendly.csv".
  rewrite loop_events_not_positive by done.
  split_and!; [done | done | | by rewrite lookup_insert_eq].
  rewrite lookup_insert_ne by done. unfold parquet_files. simpl.
  by rewrite lookup_insert_eq.
Qed.

Lemma run_defaults_witness :
  (run Faulty.env_pyarrow Sample.argv_bare Sample.world1).1 = 0.
Proof.
  apply (run_defaults Faulty.env_pyarrow Sample.argv_bare Sample.world1
           "fedcba9876543210"); try reflexivity; try done.
  intros sid _. by exists (Sample.observations sid).
Defined.

(** X10: A Parquet path that is the primary path: the Parquet write comes
    after the primary CSV write, so when it goes through (and the friendly
    path is another one) the primary path ends up holding the Parquet
    bytes, not the CSV. *)
Theorem parquet_on_primary_path_overwrites (E : Env) (argv : Argv) (w : World)
    (key : string) :
  api_key (parse_args E argv) = Some key →
  key ≠ "" →
  (∀ sid, sid ∈ dict_keys SERIES → answered E key sid) →
  Str.occurs ".csv" (out (parse_args E argv)) →
  parquet (parse_args E argv) = Some (out (parse_args E argv)) →
  parquet_io E (out (parse_args E argv)) = IoOk →
  csv_io E (out (parse_args E argv)) = IoOk →
  csv_io E (friendly_out_of (out (parse_args E argv))) = IoOk →
  (run E argv w).1 = 0 ∧
  files (run E argv w).2 !! out (parse_args E argv) =
    Some (parquet_bytes E (dual_header (catalog_table (answers E key)))).
Proof.
  intros Hkey Hne Hok Hocc Hpq Hpio Hout Hfo.
  pose proof (friendly_out_of_occurs_differs _ Hocc) as Hdiff.
  destruct (run_success E argv w key Hkey Hne Hok Hout Hfo) as [hp ->].
  cbn [fst snd files]. split; [done |].
  rewrite lookup_insert_ne by done. unfold parquet_files. rewrite Hpq.
  destruct (out (parse_args E argv)) as [|c o] eqn:Ho.
  { destruct Hocc as (a & b & Hab). by destruct a. }
  rewrite Hpio. by rewrite lookup_insert_eq.
Qed.

Lemma parquet_on_primary_path_overwrites_witness :
  files (run Faulty.env_pyarrow
           (with_parquet Sample.argv (Some "fred_series_all.csv"))
           Sample.world1).2 !! "fred_series_all.csv"
  = Some "PAR1".
Proof.
  destruct (parquet_on_primary_path_overwrites Faulty.env_pyarrow
              (with_parquet Sample.argv (Some "fred_series_all.csv"))
              Sample.world1 "0123456789abcdef") as (_ & Hfile).
  - reflexivity.
  - done.
  - intros sid _. by exists (Sample.observations sid).
  - by exists "fred_series_all", "".
  - reflexivity.
  - reflexivity.
  - reflexivity.
  - reflexivity.
  - exact Hfile.
Defined.
